(** * Dream distribution configs: a shallow embedding of
      [deeppavlov_dreamtools/distconfigs/manager.py]

    The development follows the module top to bottom: Python exceptions as
    an error monad, the [str] operations the module calls, the connector
    URL parser, the filesystem the wrappers read and write, the config
    wrappers ([BaseDreamConfig] and its JSON/YAML subclasses), the pipeline
    filter and the distribution aggregate with [create_local_yml]. *)

From Stdlib Require Import Ascii String.
From stdpp Require Import gmap strings list.

Local Open Scope string_scope.
#[local] Set Warnings "-register-all".

(** ** Exceptions *)

(** The exception classes that the modelled code can raise. *)
Inductive exn : Set :=
  | ValueError
  | TypeError
  | IndexError
  | KeyError
  | AttributeError
  | FileNotFoundError
  | FileExistsError
  | IsADirectoryError
  | NotADirectoryError
  | DecodeError
  | ValidationError.

(** A Python call either returns a value or raises. *)
Inductive result (A : Type) : Type :=
  | Ok (a : A)
  | Raise (e : exn).
Arguments Ok {A} a.
Arguments Raise {A} e.

#[global] Instance result_ret : MRet result := fun A a => Ok a.
#[global] Instance result_bind : MBind result :=
  fun A B f m => match m with Ok a => f a | Raise e => Raise e end.

#[global] Instance result_fmap : FMap result :=
  fun A B f m => match m with Ok a => Ok (f a) | Raise e => Raise e end.

Definition is_ok {A} (r : result A) : bool :=
  match r with Ok _ => true | Raise _ => false end.

(** ** Python [str] operations *)

Module PyStr.

(** [s.startswith(p)]. *)
Fixpoint startswith (p s : string) : bool :=
  match p, s with
  | EmptyString, _ => true
  | String a p', String b s' => Ascii.eqb a b && startswith p' s'
  | String _ _, EmptyString => false
  end.

(** Truth value of a string: the empty string is falsy. *)
Definition truthy (s : string) : bool :=
  match s with EmptyString => false | String _ _ => true end.

(** One more split is allowed under [maxsplit] ([None] is Python's -1). *)
Definition may_split (maxsplit : option nat) : bool :=
  match maxsplit with Some O => false | _ => true end.

Definition after_split (maxsplit : option nat) : option nat :=
  match maxsplit with Some n => Some (pred n) | None => None end.

(** The scan of [s.split(sep, maxsplit)] for a non-empty [sep], left to
    right: [cur] is the piece being collected, [skip] counts the
    characters of a separator just matched that are still to be passed. *)
Fixpoint split_scan (sep : string) (maxsplit : option nat) (skip : nat)
    (cur s : string) : list string :=
  match s with
  | EmptyString => [cur]
  | String c s' =>
      match skip with
      | S k => split_scan sep maxsplit k cur s'
      | O =>
          if may_split maxsplit && startswith sep s
          then cur :: split_scan sep (after_split maxsplit)
                        (String.length sep - 1) "" s'
          else split_scan sep maxsplit 0 (cur +:+ String c "") s'
      end
  end.

(** [s.split(sep, maxsplit)]; an empty separator raises [ValueError]. *)
Definition split (sep : string) (maxsplit : option nat) (s : string)
    : result (list string) :=
  if truthy sep then Ok (split_scan sep maxsplit 0 "" s)
  else Raise ValueError.

(** [s.replace(old, new)] for one-character [old] and [new]. *)
Fixpoint replace_char (old new : ascii) (s : string) : string :=
  match s with
  | EmptyString => EmptyString
  | String c s' =>
      String (if Ascii.eqb c old then new else c) (replace_char old new s')
  end.

(** [sep.join(l)]. *)
Fixpoint join (sep : string) (l : list string) : string :=
  match l with
  | [] => ""
  | [x] => x
  | x :: rest => x +:+ sep +:+ join sep rest
  end.

(** Number of occurrences of the character [c] in [s]. *)
Fixpoint count_char (c : ascii) (s : string) : nat :=
  match s with
  | EmptyString => 0
  | String a s' => (if Ascii.eqb a c then 1 else 0) + count_char c s'
  end.

End PyStr.

(** ** Python list indexing *)

(** [l[i]] for a non-negative index. *)
Definition py_index {A} (l : list A) (i : nat) : result A :=
  match l !! i with Some x => Ok x | None => Raise IndexError end.

(** [l[-1]]. *)
Definition py_last {A} (l : list A) : result A :=
  match last l with Some x => Ok x | None => Raise IndexError end.

(** ** The connector URL parser *)

(** [host, port = parts]: unpacking into exactly two names. *)
Definition unpack2 {A} (l : list A) : result (A * A) :=
  match l with
  | [a; b] => Ok (a, b)
  | _ => Raise ValueError
  end.

Definition url_triple : Type := option string * option string * option string.

Definition _parse_connector_url (url : option string) : result url_triple :=
  match url with
  | Some u =>
      if PyStr.truthy u then
        pieces ← PyStr.split "//" None u;
        url_without_protocol ← py_last pieces;
        url_parts ← PyStr.split "/" (Some 1) url_without_protocol;
        hostport ← py_index url_parts 0;
        hp ← PyStr.split ":" None hostport ≫= unpack2;
        let endpoint :=
          if decide (1 < length url_parts)
          then default "" (url_parts !! 1) else "" in
        Ok (Some hp.1, Some hp.2, Some endpoint)
      else Ok (None, None, None)
  | None => Ok (None, None, None)
  end.

(** The host segment of a URL: what follows the last ["//"] up to the
    first ["/"] after it. *)
Definition host_segment (u : string) : string :=
  let rest := default "" (last (PyStr.split_scan "//" None 0 "" u)) in
  default "" (head (PyStr.split_scan "/" (Some 1) 0 "" rest)).

(** ** Structured values

    What the JSON and YAML codecs read and write: scalars, sequences and
    mappings with string keys (a Python [dict] keeps insertion order). *)

Inductive raw : Type :=
  | RNull
  | RBool (b : bool)
  | RInt (n : Z)
  | RStr (s : string)
  | RList (l : list raw)
  | RDict (d : list (string * raw)).

(** ** Python dictionaries with string keys

    An association list in insertion order; [set] keeps the keys unique. *)

Module Dict.

Definition t (V : Type) : Type := list (string * V).

Definition keys {V} (d : t V) : list string := List.map fst d.

(** [d.get(k)]. *)
Fixpoint get {V} (k : string) (d : t V) : option V :=
  match d with
  | [] => None
  | (k', v) :: d' => if decide (k' = k) then Some v else get k d'
  end.

(** [d[k] = v]: the value is replaced where the key stands, a new key
    goes last. *)
Fixpoint set {V} (k : string) (v : V) (d : t V) : t V :=
  match d with
  | [] => [(k, v)]
  | (k', v') :: d' =>
      if decide (k' = k) then (k, v) :: d' else (k', v') :: set k v d'
  end.

(** [{**a, **b}]. *)
Definition merge {V} (a b : t V) : t V :=
  foldl (fun acc kv => set kv.1 kv.2 acc) a b.

(** [{k: v for k, v in d.items() if keep(k)}]. *)
Definition filter_keys {V} (keep : string -> bool) (d : t V) : t V :=
  List.filter (fun kv => keep kv.1) d.

(** The entries that pass a test on key and value. *)
Definition filter_keys_values {V} (keep : string -> V -> bool) (d : t V)
    : t V :=
  List.filter (fun kv => keep kv.1 kv.2) d.

Definition map_values {V W} (f : V -> W) (d : t V) : t W :=
  List.map (fun kv => (kv.1, f kv.2)) d.

(** The same with a conversion that may raise; the first error wins. *)
Fixpoint traverse {V W} (f : V -> result W) (d : t V) : result (t W) :=
  match d with
  | [] => Ok []
  | (k, v) :: d' => w ← f v; r ← traverse f d'; Ok ((k, w) :: r)
  end.

(** The entries whose key is not listed. *)
Definition without {V} (ks : list string) (d : t V) : t V :=
  filter_keys (fun k => negb (bool_decide (k ∈ ks))) d.

End Dict.

(** ** Paths *)

Module Pathlib.

(** A pure POSIX path: whether it starts at the root, and its
    components. A leading double slash is read as the root. *)
Record Path : Type := mkPath { anchored : bool; parts : list string }.

#[global] Instance Path_eq_dec : EqDecision Path.
Proof. solve_decision. Defined.

Definition is_component (c : string) : bool :=
  negb (bool_decide (c = "")) && negb (bool_decide (c = ".")).

(** [Path(s)]: empty components and ["."] are dropped. *)
Definition of_str (s : string) : Path :=
  {| anchored := PyStr.startswith "/" s;
     parts := List.filter is_component (PyStr.split_scan "/" None 0 "" s) |}.

(** [p / s]: an absolute right operand replaces the path. *)
Definition joinpath (p : Path) (s : string) : Path :=
  let q := of_str s in
  if anchored q then q
  else {| anchored := anchored p; parts := parts p ++ parts q |}.

(** [p.name]. *)
Definition name (p : Path) : string := default "" (last (parts p)).

(** [p.parents[i]]. *)
Definition parents (p : Path) (i : nat) : result Path :=
  if decide (i < length (parts p))
  then Ok {| anchored := anchored p;
             parts := take (length (parts p) - 1 - i) (parts p) |}
  else Raise IndexError.

End Pathlib.

Abbreviation Path := Pathlib.Path.
Infix "</>" := Pathlib.joinpath (at level 40, left associativity).

(** ** The filesystem *)

(** A directory, or a file with the structured value its text decodes to
    ([None] for text the codec rejects). *)
Inductive node : Type :=
  | Dir
  | File (content : option raw).

(** Nodes are stored under absolute component lists; the root is a
    directory. Dot-dot components and symbolic links are not interpreted. *)
Record filesystem : Type := mkFs {
  cwd : list string;
  nodes : gmap (list string) node
}.

Definition locate (fs : filesystem) (p : Path) : list string :=
  if Pathlib.anchored p then Pathlib.parts p
  else cwd fs ++ Pathlib.parts p.

Definition node_at (fs : filesystem) (key : list string) : option node :=
  match key with
  | [] => Some Dir
  | _ => nodes fs !! key
  end.

(** [p.resolve()]. *)
Definition resolve (fs : filesystem) (p : Path) : Path :=
  {| Pathlib.anchored := true; Pathlib.parts := locate fs p |}.

(** [p.exists()]. *)
Definition path_exists (fs : filesystem) (p : Path) : bool :=
  match node_at fs (locate fs p) with Some _ => true | None => false end.

(** [p.is_dir()]. *)
Definition is_dir (fs : filesystem) (p : Path) : bool :=
  match node_at fs (locate fs p) with Some Dir => true | _ => false end.

Definition is_file (fs : filesystem) (p : Path) : bool :=
  match node_at fs (locate fs p) with Some (File _) => true | _ => false end.

(** The writing modes of [open] that the module uses. *)
Inductive open_mode : Set := ModeW | ModeX.

(** The directory that holds the entry must be there. *)
Definition check_parent (fs : filesystem) (key : list string) : result unit :=
  match node_at fs (removelast key) with
  | Some Dir => Ok ()
  | Some (File _) => Raise NotADirectoryError
  | None => Raise FileNotFoundError
  end.

Definition store (fs : filesystem) (key : list string) (data : raw)
    : filesystem :=
  {| cwd := cwd fs; nodes := <[key := File (Some data)]> (nodes fs) |}.

(** [with open(path, mode) as f: codec.dump(data, f)] for the two writing
    modes: ["w"] creates or truncates, ["x"] creates and refuses a path
    that exists. *)
Definition write_file (mode : open_mode) (fs : filesystem) (p : Path)
    (data : raw) : result filesystem :=
  let key := locate fs p in
  _ ← check_parent fs key;
  match mode, node_at fs key with
  | ModeW, Some Dir => Raise IsADirectoryError
  | ModeW, _ => Ok (store fs key data)
  | ModeX, Some _ => Raise FileExistsError
  | ModeX, None => Ok (store fs key data)
  end.

(** [with open(path, "r") as f: data = codec.load(f)]. *)
Definition read_file (fs : filesystem) (p : Path) : result raw :=
  match node_at fs (locate fs p) with
  | None => Raise FileNotFoundError
  | Some Dir => Raise IsADirectoryError
  | Some (File None) => Raise DecodeError
  | Some (File (Some data)) => Ok data
  end.

(** ** The document schemas (module [generics])

    Modelled from the spec: the module [generics], which declares the
    pydantic models [ComposeOverride], [ComposeDev], [ComposeProxy],
    [ComposeLocal], the container classes, [DeploymentDefinition] and the
    pipeline models, is not among the sources. The records below follow
    the spec's data model: a compose document has [version] and
    [services]; a container carries arbitrary fields of which only
    [ports] and [deploy] are touched, the rest is kept verbatim; a
    [deploy] block has [mode] and [replicas]. *)

Module Generics.

(** Modelled from the spec: the [deploy] block. *)
Record DeploymentDefinition : Type := mkDeploy {
  mode : option string;
  replicas : option Z;
  deploy_fields : Dict.t raw
}.

(** The container classes that [manager] imports. *)
Inductive container_class : Set :=
  | ComposeContainer
  | ComposeDevContainer
  | ComposeLocalContainer.

(** Modelled from the spec: a container descriptor of any class. *)
Record AnyContainer : Type := mkContainer {
  class_of : container_class;
  ports : option raw;
  deploy : option DeploymentDefinition;
  fields : Dict.t raw
}.

(** The four compose document kinds. *)
Inductive compose_kind : Set := Override | Dev | Proxy | Local.

(** Modelled from the spec: the container class each kind declares for
    its services. *)
Definition container_class_of (k : compose_kind) : container_class :=
  match k with
  | Override => ComposeContainer
  | Dev => ComposeDevContainer
  | Proxy => ComposeContainer
  | Local => ComposeLocalContainer
  end.

(** Modelled from the spec: a compose document; the kind is a phantom
    index. *)
Record Compose (k : compose_kind) : Type := mkCompose {
  version : string;
  services : Dict.t AnyContainer
}.
Arguments mkCompose {k} version services.
Arguments version {k} c.
Arguments services {k} c.

(** Modelled from the spec: the version a document gets when none is
    given. *)
Definition DEFAULT_VERSION : string := "3.7".

(** Modelled from the spec: [Cls.parse_obj(s)] on a container instance
    reads it as class [Cls] and keeps every field. *)
Definition container_parse_obj (cls : container_class) (s : AnyContainer)
    : AnyContainer :=
  {| class_of := cls; ports := ports s; deploy := deploy s;
     fields := fields s |}.

(** Modelled from the spec: [GENERIC_MODEL.parse_obj(model_dict)] on a
    dictionary that already holds a version and container instances:
    each container is validated as the kind's container class. *)
Definition compose_validate (k : compose_kind) (version : string)
    (services : Dict.t AnyContainer) : Compose k :=
  mkCompose version
    (Dict.map_values (container_parse_obj (container_class_of k)) services).

(** [DeploymentDefinition(mode=..., replicas=...)]. *)
Definition new_deployment (mode : string) (replicas : Z)
    : DeploymentDefinition :=
  {| mode := Some mode; replicas := Some replicas; deploy_fields := [] |}.


(** *** Decoded data to models and back

    Modelled from the spec: [GENERIC_MODEL.parse_obj(data)] on decoded
    data, failing with [ValidationError] when a required field is
    absent or a value has the wrong form, and
    [json.loads(config.json(exclude_none=True))]. *)

(** An optional field: absent and null are the same. *)
Definition opt_field (k : string) (d : Dict.t raw) : option raw :=
  match Dict.get k d with
  | Some RNull | None => None
  | Some r => Some r
  end.

Definition opt_str (k : string) (d : Dict.t raw) : result (option string) :=
  match opt_field k d with
  | None => Ok None
  | Some (RStr x) => Ok (Some x)
  | Some _ => Raise ValidationError
  end.

Definition opt_int (k : string) (d : Dict.t raw) : result (option Z) :=
  match opt_field k d with
  | None => Ok None
  | Some (RInt n) => Ok (Some n)
  | Some _ => Raise ValidationError
  end.

Definition opt_parse {A} (f : raw -> result A) (k : string)
    (d : Dict.t raw) : result (option A) :=
  match opt_field k d with
  | None => Ok None
  | Some r => Some <$> f r
  end.

(** The entries of an optional field, for [exclude_none]. *)
Definition opt_entry (k : string) (v : option raw) : Dict.t raw :=
  match v with Some r => [(k, r)] | None => [] end.

Definition deployment_of_raw (r : raw) : result DeploymentDefinition :=
  match r with
  | RDict d =>
      m ← opt_str "mode" d;
      n ← opt_int "replicas" d;
      Ok {| mode := m; replicas := n;
            deploy_fields := Dict.without ["mode"; "replicas"] d |}
  | _ => Raise ValidationError
  end.

Definition raw_of_deployment (d : DeploymentDefinition) : raw :=
  RDict (opt_entry "mode" (RStr <$> mode d)
         ++ opt_entry "replicas" (RInt <$> replicas d)
         ++ deploy_fields d).

Definition container_of_raw (cls : container_class) (r : raw)
    : result AnyContainer :=
  match r with
  | RDict d =>
      dep ← opt_parse deployment_of_raw "deploy" d;
      Ok {| class_of := cls; ports := opt_field "ports" d; deploy := dep;
            fields := Dict.without ["ports"; "deploy"] d |}
  | _ => Raise ValidationError
  end.

Definition raw_of_container (c : AnyContainer) : raw :=
  RDict (opt_entry "ports" (ports c)
         ++ opt_entry "deploy" (raw_of_deployment <$> deploy c)
         ++ fields c).

Definition compose_of_raw (k : compose_kind) (r : raw)
    : result (Compose k) :=
  match r with
  | RDict d =>
      v ← opt_str "version" d;
      match Dict.get "services" d with
      | Some (RDict sd) =>
          svcs ← Dict.traverse (container_of_raw (container_class_of k)) sd;
          Ok (mkCompose (default DEFAULT_VERSION v) svcs)
      | _ => Raise ValidationError
      end
  | _ => Raise ValidationError
  end.

Definition raw_of_compose {k} (c : Compose k) : raw :=
  RDict [("version", RStr (version c));
         ("services", RDict (Dict.map_values raw_of_container (services c)))].

End Generics.

(** Modelled from the spec: the pipeline models of the absent module
    [generics]. A pipeline document has [connectors] (name to connector,
    with an optional [url]) and [services]: three optional singletons and
    six mappings from name to service. A service either embeds a
    connector object or names one; only an embedded object has the
    attribute [url]. *)

Module PipelineGenerics.

Import Generics.

Record PipelineConfConnector : Type := mkConnector {
  url : option string;
  connector_fields : Dict.t raw
}.

Inductive service_connector : Type :=
  | ConnectorName (ref : string)
  | ConnectorObject (c : PipelineConfConnector).

Record PipelineConfService : Type := mkService {
  connector : service_connector;
  service_fields : Dict.t raw
}.

Record PipelineConfServiceList : Type := mkServiceList {
  last_chance_service : option PipelineConfService;
  timeout_service : option PipelineConfService;
  bot_annotator_selector : option PipelineConfService;
  post_annotators : Dict.t PipelineConfService;
  annotators : Dict.t PipelineConfService;
  skill_selectors : Dict.t PipelineConfService;
  skills : Dict.t PipelineConfService;
  post_skill_selector_annotators : Dict.t PipelineConfService;
  response_selectors : Dict.t PipelineConfService
}.

Record PipelineConf : Type := mkPipeline {
  connectors : Dict.t PipelineConfConnector;
  services : PipelineConfServiceList
}.

(** [v.connector.url]: a connector given by name is a [str], which has
    no such attribute. *)
Definition connector_url_attr (v : PipelineConfService)
    : result (option string) :=
  match connector v with
  | ConnectorObject c => Ok (url c)
  | ConnectorName _ => Raise AttributeError
  end.

Definition connector_of_raw (r : raw) : result PipelineConfConnector :=
  match r with
  | RDict d =>
      u ← opt_str "url" d;
      Ok {| url := u; connector_fields := Dict.without ["url"] d |}
  | _ => Raise ValidationError
  end.

Definition raw_of_connector (c : PipelineConfConnector) : raw :=
  RDict (opt_entry "url" (RStr <$> url c) ++ connector_fields c).

Definition service_of_raw (r : raw) : result PipelineConfService :=
  match r with
  | RDict d =>
      c ← match Dict.get "connector" d with
          | Some (RStr ref) => Ok (ConnectorName ref)
          | Some (RDict cd) => ConnectorObject <$> connector_of_raw (RDict cd)
          | _ => Raise ValidationError
          end;
      Ok {| connector := c; service_fields := Dict.without ["connector"] d |}
  | _ => Raise ValidationError
  end.

Definition raw_of_service (v : PipelineConfService) : raw :=
  RDict (("connector",
          match connector v with
          | ConnectorName ref => RStr ref
          | ConnectorObject c => raw_of_connector c
          end) :: service_fields v).

Definition category_of_raw (k : string) (d : Dict.t raw)
    : result (Dict.t PipelineConfService) :=
  match Dict.get k d with
  | Some (RDict sd) => Dict.traverse service_of_raw sd
  | _ => Raise ValidationError
  end.

Definition service_list_of_raw (r : raw) : result PipelineConfServiceList :=
  match r with
  | RDict d =>
      lc ← opt_parse service_of_raw "last_chance_service" d;
      ts ← opt_parse service_of_raw "timeout_service" d;
      bs ← opt_parse service_of_raw "bot_annotator_selector" d;
      pa ← category_of_raw "post_annotators" d;
      an ← category_of_raw "annotators" d;
      ss ← category_of_raw "skill_selectors" d;
      sk ← category_of_raw "skills" d;
      ps ← category_of_raw "post_skill_selector_annotators" d;
      rs ← category_of_raw "response_selectors" d;
      Ok (mkServiceList lc ts bs pa an ss sk ps rs)
  | _ => Raise ValidationError
  end.

Definition category_entry (k : string) (d : Dict.t PipelineConfService)
    : string * raw :=
  (k, RDict (Dict.map_values raw_of_service d)).

Definition raw_of_service_list (l : PipelineConfServiceList) : raw :=
  RDict (opt_entry "last_chance_service"
           (raw_of_service <$> last_chance_service l)
         ++ opt_entry "timeout_service" (raw_of_service <$> timeout_service l)
         ++ opt_entry "bot_annotator_selector"
              (raw_of_service <$> bot_annotator_selector l)
         ++ [category_entry "post_annotators" (post_annotators l);
             category_entry "annotators" (annotators l);
             category_entry "skill_selectors" (skill_selectors l);
             category_entry "skills" (skills l);
             category_entry "post_skill_selector_annotators"
               (post_skill_selector_annotators l);
             category_entry "response_selectors" (response_selectors l)]).

Definition pipeline_of_raw (r : raw) : result PipelineConf :=
  match r with
  | RDict d =>
      match Dict.get "connectors" d, Dict.get "services" d with
      | Some (RDict cd), Some sr =>
          cs ← Dict.traverse connector_of_raw cd;
          sl ← service_list_of_raw sr;
          Ok (mkPipeline cs sl)
      | _, _ => Raise ValidationError
      end
  | _ => Raise ValidationError
  end.

Definition raw_of_pipeline (c : PipelineConf) : raw :=
  RDict [("connectors", RDict (Dict.map_values raw_of_connector (connectors c)));
         ("services", raw_of_service_list (services c))].

(** Modelled from the spec: [GENERIC_MODEL.parse_obj(model_dict)] on a
    dictionary that already holds connector and service-list instances
    keeps them. *)
Definition pipeline_validate (connectors : Dict.t PipelineConfConnector)
    (services : PipelineConfServiceList) : PipelineConf :=
  mkPipeline connectors services.

End PipelineGenerics.

(** ** The config wrappers *)

(** The two serialization formats, one per intermediate class. *)
Inductive codec : Set := Json | Yaml.

(** What a concrete wrapper class fixes: its default file name, its
    model ([GENERIC_MODEL], through [parse_obj] and the serialization of
    [to_path]) and the intermediate class it derives from. A wrapper
    holds nothing but its [_config], so it is identified with it. *)
Class DreamConfig (C : Type) : Type := {
  DEFAULT_FILE_NAME : string;
  base_class : codec;
  parse_obj : raw -> result C;
  jsonable : C -> raw
}.

(** [JsonDreamConfig.load]. *)
Definition JsonDreamConfig_load (fs : filesystem) (path : Path) : result raw :=
  read_file fs path.

(** [JsonDreamConfig.dump]. *)
Definition JsonDreamConfig_dump (data : raw) (path : Path) (overwrite : bool)
    (fs : filesystem) : result (Path * filesystem) :=
  let mode := if overwrite then ModeX else ModeW in
  fs' ← write_file mode fs path data;
  Ok (path, fs').

(** [YmlDreamConfig.load]. *)
Definition YmlDreamConfig_load (fs : filesystem) (path : Path) : result raw :=
  read_file fs path.

(** [YmlDreamConfig.dump]. *)
Definition YmlDreamConfig_dump (data : raw) (path : Path) (overwrite : bool)
    (fs : filesystem) : result (Path * filesystem) :=
  let mode := if overwrite then ModeX else ModeW in
  fs' ← write_file mode fs path data;
  Ok (path, fs').

(** Calling a function [f(obj)] of one parameter with [data] unpacked
    into keyword arguments (the double-star call): the keys of [data]
    become keyword names, so exactly the key ["obj"] must be passed; data
    that is not a mapping cannot be unpacked at all. *)
Definition call_with_kwargs {A} (f : raw -> result A) (data : raw) : result A :=
  match data with
  | RDict [(k, v)] => if decide (k = "obj") then f v else Raise TypeError
  | _ => Raise TypeError
  end.

Section BaseDreamConfig.

Context {C : Type} `{DreamConfig C}.

(** [cls.load], as the subclass inherits it. *)
Definition load (fs : filesystem) (path : Path) : result raw :=
  match base_class with
  | Json => JsonDreamConfig_load fs path
  | Yaml => YmlDreamConfig_load fs path
  end.

(** [cls.dump], as the subclass inherits it. *)
Definition dump (data : raw) (path : Path) (overwrite : bool)
    (fs : filesystem) : result (Path * filesystem) :=
  match base_class with
  | Json => JsonDreamConfig_dump data path overwrite fs
  | Yaml => YmlDreamConfig_dump data path overwrite fs
  end.

Definition from_path (fs : filesystem) (path : Path) : result C :=
  data ← load fs path;
  config ← call_with_kwargs parse_obj data;
  Ok config.

Definition from_dist (fs : filesystem) (dist_path : Path) : result C :=
  data ← load fs (resolve fs dist_path </> DEFAULT_FILE_NAME);
  config ← parse_obj data;
  Ok config.

Definition to_path (self : C) (path : Path) (overwrite : bool)
    (fs : filesystem) : result (Path * filesystem) :=
  let config := jsonable self in
  dump config path overwrite fs.

Definition to_dist (self : C) (dist_path : Path) (overwrite : bool)
    (fs : filesystem) : result (Path * filesystem) :=
  let config := jsonable self in
  let path := dist_path </> DEFAULT_FILE_NAME in
  dump config path overwrite fs.

End BaseDreamConfig.

#[global] Instance DreamPipeline : DreamConfig PipelineGenerics.PipelineConf := {
  DEFAULT_FILE_NAME := "pipeline_conf.json";
  base_class := Json;
  parse_obj := PipelineGenerics.pipeline_of_raw;
  jsonable := PipelineGenerics.raw_of_pipeline
}.

#[global] Instance DreamComposeOverride
    : DreamConfig (Generics.Compose Generics.Override) := {
  DEFAULT_FILE_NAME := "docker-compose.override.yml";
  base_class := Yaml;
  parse_obj := Generics.compose_of_raw Generics.Override;
  jsonable := Generics.raw_of_compose
}.

#[global] Instance DreamComposeDev
    : DreamConfig (Generics.Compose Generics.Dev) := {
  DEFAULT_FILE_NAME := "dev.yml";
  base_class := Yaml;
  parse_obj := Generics.compose_of_raw Generics.Dev;
  jsonable := Generics.raw_of_compose
}.

#[global] Instance DreamComposeProxy
    : DreamConfig (Generics.Compose Generics.Proxy) := {
  DEFAULT_FILE_NAME := "proxy.yml";
  base_class := Yaml;
  parse_obj := Generics.compose_of_raw Generics.Proxy;
  jsonable := Generics.raw_of_compose
}.

#[global] Instance DreamComposeLocal
    : DreamConfig (Generics.Compose Generics.Local) := {
  DEFAULT_FILE_NAME := "local.yml";
  base_class := Yaml;
  parse_obj := Generics.compose_of_raw Generics.Local;
  jsonable := Generics.raw_of_compose
}.

(** ** Small Python idioms *)

(** [x or d] for an optional list: [None] and the empty list are falsy. *)
Definition py_or {A} (x : option (list A)) (d : list A) : list A :=
  match x with
  | Some (a :: l) => a :: l
  | _ => d
  end.

(** [h in names] for an optional string and a list of strings. *)
Definition opt_in (h : option string) (names : list string) : bool :=
  match h with
  | Some x => bool_decide (x ∈ names)
  | None => false
  end.

(** Truth value of an optional string. *)
Definition opt_truthy (u : option string) : bool :=
  match u with Some x => PyStr.truthy x | None => false end.

(** A [for] loop whose body may raise: the state is threaded through the
    items in order, the first exception ends the loop. *)
Fixpoint for_each {A S} (body : A -> S -> result S) (items : list A) (st : S)
    : result S :=
  match items with
  | [] => Ok st
  | x :: rest => st' ← body x st; for_each body rest st'
  end.

(** A method that may rebind [self._config]: the wrapper after the call
    and the returned wrapper. *)
Record called (C : Type) : Type := mkCalled { self_after : C; value : C }.
Arguments mkCalled {C} self_after value.
Arguments self_after {C} c.
Arguments value {C} c.

(** ** [YmlDreamConfig] *)

Module YmlDreamConfig.

Import Generics.

Section Methods.

Context {k : compose_kind}.

(** [self[item]]. *)
Definition getitem (self : Compose k) (item : string) : result AnyContainer :=
  match Dict.get item (services self) with
  | Some c => Ok c
  | None => Raise KeyError
  end.

Definition iter_services (self : Compose k) : list (string * AnyContainer) :=
  services self.

Definition filter_services (self : Compose k)
    (include_names exclude_names : option (list string)) (inplace : bool)
    : called (Compose k) :=
  let include_names := py_or include_names (Dict.keys (services self)) in
  let exclude_names := py_or exclude_names [] in
  let config :=
    compose_validate k (version self)
      (Dict.filter_keys
         (fun k => bool_decide (k ∈ include_names)
                   && negb (bool_decide (k ∈ exclude_names)))
         (services self)) in
  if inplace then mkCalled config config else mkCalled self config.

(** The copy taken of [self._config] is shallow, so the assignment
    [services[name] = definition] also lands in the dictionary that
    [self] holds. *)
Definition add_service (self : Compose k) (name : string)
    (definition : AnyContainer) (inplace : bool) : called (Compose k) :=
  let services := Dict.set name definition (services self) in
  let config := compose_validate k (version self) services in
  if inplace then mkCalled config config
  else mkCalled (mkCompose (version self) services) config.

End Methods.

End YmlDreamConfig.

(** ** [DreamPipeline] *)

Module DreamPipeline.

Import PipelineGenerics.

Definition filter_connector_step (names exclude_names : list string)
    (kv : string * PipelineConfConnector)
    (filtered_dict : Dict.t PipelineConfConnector)
    : result (Dict.t PipelineConfConnector) :=
  let '(k, v) := kv in
  if opt_truthy (url v) then
    '(host, port, endpoint) ← _parse_connector_url (url v);
    if opt_in host names && negb (opt_in host exclude_names)
    then Ok (Dict.set k v filtered_dict)
    else Ok filtered_dict
  else Ok filtered_dict.

Definition _filter_connectors_by_name
    (original_dict : Dict.t PipelineConfConnector)
    (names exclude_names : list string)
    : result (Dict.t PipelineConfConnector) :=
  for_each (filter_connector_step names exclude_names) original_dict [].

(** [k.replace("_", "-")]. *)
Definition dashed (k : string) : string := PyStr.replace_char "_" "-" k.

Definition filter_service_step (names exclude_names : list string)
    (kv : string * PipelineConfService)
    (filtered_dict : Dict.t PipelineConfService)
    : result (Dict.t PipelineConfService) :=
  let '(k, v) := kv in
  match connector_url_attr v with
  | Raise AttributeError =>
      if bool_decide (dashed k ∈ names)
      then Ok (Dict.set k v filtered_dict)
      else Ok filtered_dict
  | Raise e => Raise e
  | Ok url =>
      if opt_truthy url then
        '(host, port, endpoint) ← _parse_connector_url url;
        if opt_in host names && negb (opt_in host exclude_names)
        then Ok (Dict.set k v filtered_dict)
        else Ok filtered_dict
      else Ok filtered_dict
  end.

Definition _filter_services_by_name
    (original_dict : Dict.t PipelineConfService)
    (names exclude_names : list string)
    : result (Dict.t PipelineConfService) :=
  for_each (filter_service_step names exclude_names) original_dict [].

Definition filter_services (self : PipelineConf)
    (include_names exclude_names : option (list string)) (inplace : bool)
    : result (called PipelineConf) :=
  let include_names := py_or include_names [] in
  let exclude_names := py_or exclude_names [] in
  let cfg := services self in
  connectors ←
    _filter_connectors_by_name (connectors self) include_names exclude_names;
  post_annotators ←
    _filter_services_by_name (post_annotators cfg) include_names exclude_names;
  annotators ←
    _filter_services_by_name (annotators cfg) include_names exclude_names;
  skill_selectors ←
    _filter_services_by_name (skill_selectors cfg) include_names exclude_names;
  skills ←
    _filter_services_by_name (skills cfg) include_names exclude_names;
  post_skill_selector_annotators ←
    _filter_services_by_name (post_skill_selector_annotators cfg)
      include_names exclude_names;
  response_selectors ←
    _filter_services_by_name (response_selectors cfg)
      include_names exclude_names;
  let services :=
    {| last_chance_service := last_chance_service cfg;
       timeout_service := timeout_service cfg;
       bot_annotator_selector := bot_annotator_selector cfg;
       post_annotators := post_annotators;
       annotators := annotators;
       skill_selectors := skill_selectors;
       skills := skills;
       post_skill_selector_annotators := post_skill_selector_annotators;
       response_selectors := response_selectors |} in
  let config := pipeline_validate connectors services in
  Ok (if inplace then mkCalled config config else mkCalled self config).

End DreamPipeline.

(** ** [DreamDist] *)

(** An argument typed [Union[str, Path]]. *)
Inductive pathlike : Type :=
  | AsStr (s : string)
  | AsPath (p : Path).

(** [Path(x)]. *)
Definition to_Path (x : pathlike) : Path :=
  match x with
  | AsStr s => Pathlib.of_str s
  | AsPath p => p
  end.

(** Truth value: a [Path] object is always truthy. *)
Definition pathlike_truthy (x : pathlike) : bool :=
  match x with
  | AsStr s => PyStr.truthy s
  | AsPath _ => true
  end.

(** An optional argument that passes an [if] test: given and truthy. *)
Definition truthy_pathlike (x : option pathlike) : option pathlike :=
  match x with
  | Some p => if pathlike_truthy p then Some p else None
  | None => None
  end.

Definition truthy_str (x : option string) : option string :=
  match x with
  | Some s => if PyStr.truthy s then Some s else None
  | None => None
  end.

(** Attribute access on an optional member: [None] has no attributes. *)
Definition attr_of {A} (x : option A) : result A :=
  match x with Some a => Ok a | None => Raise AttributeError end.

Module DreamDist.

Import Generics.

Record t : Type := mkDist {
  dist_path : Path;
  name : string;
  dream_root : pathlike;
  pipeline_conf : option PipelineGenerics.PipelineConf;
  compose_override : option (Compose Override);
  compose_dev : option (Compose Dev);
  compose_proxy : option (Compose Proxy);
  compose_local : option (Compose Local)
}.

Definition resolve_dist_path (name : string) (dream_root : pathlike) : Path :=
  to_Path dream_root </> "assistant_dists" </> name.

Definition resolve_name_and_dream_root (path : pathlike)
    : result (string * Path) :=
  let path := to_Path path in
  root ← Pathlib.parents path 1;
  Ok (Pathlib.name path, root).

(** The directory test of [resolve_all_paths]:
    [if not dist_path.exists() and dist_path.is_dir(): raise ...]; a
    [str] has neither method. *)
Definition check_distribution (fs : filesystem) (dist_path : pathlike)
    : result unit :=
  match dist_path with
  | AsStr _ => Raise AttributeError
  | AsPath p =>
      if negb (path_exists fs p) && is_dir fs p
      then Raise NotADirectoryError
      else Ok ()
  end.

Definition resolve_all_paths (fs : filesystem) (dist_path : option pathlike)
    (name : option string) (dream_root : option pathlike)
    : result (pathlike * string * pathlike) :=
  '(dist_path, name, dream_root) ←
    match truthy_pathlike dist_path, truthy_str name,
          truthy_pathlike dream_root with
    | Some dist_path, _, _ =>
        '(name, dream_root) ← resolve_name_and_dream_root dist_path;
        Ok (dist_path, name, AsPath dream_root)
    | None, Some name, Some dream_root =>
        let dist_path := resolve_dist_path name dream_root in
        Ok (AsPath dist_path, name, dream_root)
    | None, _, _ => Raise ValueError
    end;
  _ ← check_distribution fs dist_path;
  Ok (dist_path, name, dream_root).

Definition set_ports (p : option raw) (c : AnyContainer) : AnyContainer :=
  {| class_of := class_of c; ports := p; deploy := deploy c;
     fields := fields c |}.

Definition set_deploy (d : option DeploymentDefinition) (c : AnyContainer)
    : AnyContainer :=
  {| class_of := class_of c; ports := ports c; deploy := d;
     fields := fields c |}.

(** The service that one turn of the loop of [create_local_yml] hands to
    [add_service]; [services] is the list the loop tests against. *)
Definition local_service (services : list string)
    (drop_ports single_replica : bool) (name : string) (s : AnyContainer)
    : AnyContainer :=
  let service :=
    if bool_decide (name ∈ services) then
      let service := container_parse_obj ComposeLocalContainer s in
      if drop_ports then set_ports None service else service
    else s in
  if single_replica
  then set_deploy (Some (new_deployment "replicated" 1)) service
  else service.

(** The entries the loop of [create_local_yml] runs over. *)
Definition all_config_parts (dev_config_part : Compose Dev)
    (proxy_config_part : Compose Proxy) : Dict.t AnyContainer :=
  Dict.merge (services dev_config_part) (services proxy_config_part).

(** [create_local_yml] up to the final write: the local config it has
    built. *)
Definition build_local_config (self : t) (services : list string)
    (drop_ports single_replica : bool) : result (Compose Local) :=
  let services := (services ++ ["agent"; "mongo"])%list in
  compose_dev ← attr_of (compose_dev self);
  let dev_config_part :=
    value (YmlDreamConfig.filter_services compose_dev (Some services) None
             false) in
  compose_proxy ← attr_of (compose_proxy self);
  let proxy_config_part :=
    value (YmlDreamConfig.filter_services compose_proxy None (Some services)
             false) in
  let local_config :=
    compose_validate Local DEFAULT_VERSION
      (Generics.services proxy_config_part) in
  let all_config_parts :=
    all_config_parts dev_config_part proxy_config_part in
  Ok (foldl
        (fun local_config '(name, s) =>
           let service :=
             local_service services drop_ports single_replica name s in
           self_after
             (YmlDreamConfig.add_service local_config name service true))
        local_config all_config_parts).

Definition create_local_yml (self : t) (services : list string)
    (drop_ports single_replica : bool) (fs : filesystem)
    : result (Path * filesystem) :=
  local_config ← build_local_config self services drop_ports single_replica;
  to_dist local_config (dist_path self) false fs.

End DreamDist.

(** The endpoint of a URL: what follows the first ["/"] of the part after
    the last ["//"], empty when there is none. *)
Definition endpoint_segment (u : string) : string :=
  let rest := default "" (last (PyStr.split_scan "//" None 0 "" u)) in
  let url_parts := PyStr.split_scan "/" (Some 1) 0 "" rest in
  if decide (1 < length url_parts) then default "" (url_parts !! 1) else "".

(** The claim that a URL without a port still parses, the port being
    absent from the triple. *)
Definition parses_without_port (u : string) : Prop :=
  PyStr.truthy u = true ->
  PyStr.count_char ":" (host_segment u) = 0 ->
  exists host endpoint, _parse_connector_url (Some u) = Ok (host, None, endpoint).

(** ** Notions used in the statements *)

(** A URL that is there and that the parser rejects. *)
Definition bad_url (u : option string) : Prop :=
  opt_truthy u = true /\ _parse_connector_url u = Raise ValueError.

(** The URL of a service's embedded connector, if it has one. *)
Definition service_url (v : PipelineGenerics.PipelineConfService)
    : option string :=
  match PipelineGenerics.connector v with
  | PipelineGenerics.ConnectorObject c => PipelineGenerics.url c
  | PipelineGenerics.ConnectorName _ => None
  end.

(** The six name-keyed categories of a service list. *)
Definition categories (l : PipelineGenerics.PipelineConfServiceList)
    : list (Dict.t PipelineGenerics.PipelineConfService) :=
  [PipelineGenerics.post_annotators l;
   PipelineGenerics.annotators l;
   PipelineGenerics.skill_selectors l;
   PipelineGenerics.skills l;
   PipelineGenerics.post_skill_selector_annotators l;
   PipelineGenerics.response_selectors l].

(** Some connector or service of the pipeline has a URL that does not
    parse. *)
Definition has_bad_url (self : PipelineGenerics.PipelineConf) : Prop :=
  (exists k v, (k, v) ∈ PipelineGenerics.connectors self
               /\ bad_url (PipelineGenerics.url v))
  \/ (exists d k v, d ∈ categories (PipelineGenerics.services self)
                    /\ (k, v) ∈ d /\ bad_url (service_url v)).

(** Whether one entry passes [_filter_services_by_name]. *)
Definition service_kept (names exclude_names : list string) (k : string)
    (v : PipelineGenerics.PipelineConfService) : bool :=
  match PipelineGenerics.connector v with
  | PipelineGenerics.ConnectorName _ =>
      bool_decide (DreamPipeline.dashed k ∈ names)
  | PipelineGenerics.ConnectorObject c =>
      opt_truthy (PipelineGenerics.url c)
      && match _parse_connector_url (PipelineGenerics.url c) with
         | Ok (host, _, _) =>
             opt_in host names && negb (opt_in host exclude_names)
         | Raise _ => false
         end
  end.

(** A service without a connector URL: its connector is a name, or an
    object whose [url] is missing or empty. *)
Definition has_no_connector_url (v : PipelineGenerics.PipelineConfService)
    : bool :=
  negb (opt_truthy (service_url v)).

(** The rule that services without a connector URL are matched by their
    dashed name against both lists. *)
Definition name_rule (d : Dict.t PipelineGenerics.PipelineConfService)
    (names exclude_names : list string) : Prop :=
  forall r k v,
    DreamPipeline._filter_services_by_name d names exclude_names = Ok r ->
    Dict.get k d = Some v ->
    has_no_connector_url v = true ->
    (Dict.get k r = Some v
     <-> DreamPipeline.dashed k ∈ names
         /\ DreamPipeline.dashed k ∉ exclude_names).

(** The list that [create_local_yml] works with after its first line. *)
Definition extended (selected : list string) : list string :=
  (selected ++ ["agent"; "mongo"])%list.

(** What the local document holds for a source container: the local
    class, the ports dropped for a selected service when [drop_ports],
    the single-replica deployment when [single_replica], every other
    field as it was. *)
Definition derived_container (selected drop_ports single_replica : bool)
    (s : Generics.AnyContainer) : Generics.AnyContainer :=
  {| Generics.class_of := Generics.ComposeLocalContainer;
     Generics.ports :=
       if selected && drop_ports then None else Generics.ports s;
     Generics.deploy :=
       if single_replica
       then Some (Generics.new_deployment "replicated" 1)
       else Generics.deploy s;
     Generics.fields := Generics.fields s |}.

(** The rule that, with [drop_ports], the loop of [create_local_yml]
    reads an entry of the combined mapping as a local container and
    clears its ports exactly when its name is in the list the caller
    passed. *)
Definition original_list_rule (self : DreamDist.t) (selected : list string)
    : Prop :=
  forall dev proxy name s,
    DreamDist.compose_dev self = Some dev ->
    DreamDist.compose_proxy self = Some proxy ->
    let dev_config_part :=
      value (YmlDreamConfig.filter_services dev (Some (extended selected))
               None false) in
    let proxy_config_part :=
      value (YmlDreamConfig.filter_services proxy None
               (Some (extended selected)) false) in
    Dict.get name (DreamDist.all_config_parts dev_config_part proxy_config_part)
      = Some s ->
    let service :=
      DreamDist.local_service (extended selected) true false name s in
    (name ∈ selected ->
     Generics.class_of service = Generics.ComposeLocalContainer
     /\ Generics.ports service = None)
    /\ (name ∉ selected ->
        Generics.class_of service = Generics.class_of s
        /\ Generics.ports service = Generics.ports s).

(** A local config whose services have all been validated. *)
Definition validated (cfg : Generics.Compose Generics.Local) : Prop :=
  Dict.map_values (Generics.container_parse_obj Generics.ComposeLocalContainer)
    (Generics.services cfg)
  = Generics.services cfg.

(** One turn of a loop that adds the service [g name s] in place. *)
Definition add_in_place
    (g : string -> Generics.AnyContainer -> Generics.AnyContainer)
    (cfg : Generics.Compose Generics.Local)
    (entry : string * Generics.AnyContainer)
    : Generics.Compose Generics.Local :=
  let '(name, s) := entry in
  self_after (YmlDreamConfig.add_service cfg name (g name s) true).

(** ** Sample data

    A small Dream tree and documents, for evaluating the code. *)

Module Samples.

Import Generics PipelineGenerics.

Definition dist_dir : Path := Pathlib.of_str "/dream/assistant_dists/demo".

Definition agent_container : AnyContainer :=
  {| class_of := ComposeDevContainer;
     ports := Some (RList [RStr "4242:4242"]);
     deploy := None;
     fields := [("image", RStr "agent")] |}.

Definition dev_doc : Compose Dev :=
  mkCompose "3.7" [("agent", agent_container)].

(** A container of the given class with one published port. *)
Definition container (cls : container_class) (image port : string)
    : AnyContainer :=
  {| class_of := cls;
     ports := Some (RList [RStr port]);
     deploy := None;
     fields := [("image", RStr image)] |}.

(** The documents of the local-yml scenario. *)
Definition scenario_dev : Compose Dev :=
  mkCompose "3.7"
    [("a", container ComposeDevContainer "a-dev" "8001:8001");
     ("agent", container ComposeDevContainer "agent-dev" "4242:4242");
     ("mongo", container ComposeDevContainer "mongo-dev" "27017:27017")].

Definition scenario_proxy : Compose Proxy :=
  mkCompose "3.7"
    [("a", container ComposeContainer "proxy" "8001");
     ("b", container ComposeContainer "proxy" "8002");
     ("agent", container ComposeContainer "proxy" "4242");
     ("mongo", container ComposeContainer "proxy" "27017")].

(** What [dev.yml] holds for [dev_doc]. *)
Definition dev_raw : raw :=
  RDict [("version", RStr "3.7");
         ("services",
          RDict [("agent",
                  RDict [("ports", RList [RStr "4242:4242"]);
                         ("image", RStr "agent")])])].

Definition pipeline_doc : PipelineConf :=
  mkPipeline [] (mkServiceList None None None [] [] [] [] [] []).

(** A skill served in process: its connector is an object without URL. *)
Definition dummy_skill : PipelineConfService :=
  {| connector :=
       ConnectorObject
         {| url := None;
            connector_fields := [("protocol", RStr "python")] |};
     service_fields := [] |}.

(** A service whose connector is given by name. *)
Definition named_service : PipelineConfService :=
  {| connector := ConnectorName "connectors.sentseg"; service_fields := [] |}.

(** A service reached over HTTP. *)
Definition http_service : PipelineConfService :=
  {| connector :=
       ConnectorObject
         {| url := Some "http://dff-program-y-skill:8008/respond";
            connector_fields := [("protocol", RStr "http")] |};
     service_fields := [] |}.

Definition skills_dict : Dict.t PipelineConfService :=
  [("dummy_skill", dummy_skill);
   ("sentseg_local", named_service);
   ("dff_program_y_skill", http_service)].

(** A Dream root with one distribution that has a [dev.yml] and a
    [pipeline_conf.json]. *)
Definition disk : filesystem :=
  {| cwd := [];
     nodes := list_to_map
       [(["dream"], Dir);
        (["dream"; "assistant_dists"], Dir);
        (["dream"; "assistant_dists"; "demo"], Dir);
        (["dream"; "assistant_dists"; "demo"; "dev.yml"], File (Some dev_raw));
        (["dream"; "assistant_dists"; "demo"; "pipeline_conf.json"],
         File (Some RNull))] |}.

(** The same tree before any config was written. *)
Definition fresh_disk : filesystem :=
  {| cwd := [];
     nodes := list_to_map
       [(["dream"], Dir);
        (["dream"; "assistant_dists"], Dir);
        (["dream"; "assistant_dists"; "demo"], Dir)] |}.

Definition scenario_dist : DreamDist.t :=
  {| DreamDist.dist_path := dist_dir;
     DreamDist.name := "demo";
     DreamDist.dream_root := AsStr "/dream";
     DreamDist.pipeline_conf := None;
     DreamDist.compose_override := None;
     DreamDist.compose_dev := Some scenario_dev;
     DreamDist.compose_proxy := Some scenario_proxy;
     DreamDist.compose_local := None |}.

End Samples.

(** ** Further notions on strings and paths *)

(** [sep in s]. *)
Fixpoint str_contains (sep s : string) {struct s} : bool :=
  PyStr.startswith sep s
  || match s with
     | EmptyString => false
     | String _ s' => str_contains sep s'
     end.

(** A name that [Path] reads as one component: no slash, not empty, not
    a dot. *)
Definition plain_component (c : string) : Prop :=
  PyStr.count_char "/" c = 0 /\ c <> "" /\ c <> ".".

(** ** Creating directories *)

Definition make_dir (fs : filesystem) (key : list string) : filesystem :=
  {| cwd := cwd fs; nodes := <[key := Dir]> (nodes fs) |}.

(** [os.mkdir(path)]: the parent must be a directory and the path must
    not be there. *)
Definition os_mkdir (fs : filesystem) (key : list string) : result filesystem :=
  _ ← check_parent fs key;
  match node_at fs key with
  | Some _ => Raise FileExistsError
  | None => Ok (make_dir fs key)
  end.

(** The handler of [Path.mkdir] for an [OSError] of [os.mkdir]:
    [if not exist_ok or not self.is_dir(): raise]. *)
Definition mkdir_failed (fs : filesystem) (key : list string) (exist_ok : bool)
    (e : exn) : result filesystem :=
  if negb exist_ok
     || negb (match node_at fs key with Some Dir => true | _ => false end)
  then Raise e
  else Ok fs.

(** [path.mkdir(parents=False, exist_ok=exist_ok)]. *)
Definition mkdir_plain (fs : filesystem) (key : list string) (exist_ok : bool)
    : result filesystem :=
  match os_mkdir fs key with
  | Ok fs' => Ok fs'
  | Raise FileNotFoundError => Raise FileNotFoundError
  | Raise e => mkdir_failed fs key exist_ok e
  end.

(** [path.mkdir(parents=True, exist_ok=exist_ok)], on the components of
    the path in reverse: when the parent is missing it is made first,
    with [exist_ok=True], and the directory itself is then made without
    [parents]. *)
Fixpoint mkdir_parents (fs : filesystem) (rkey : list string) (exist_ok : bool)
    : result filesystem :=
  match os_mkdir fs (rev rkey) with
  | Ok fs' => Ok fs'
  | Raise FileNotFoundError =>
      match rkey with
      | [] => Raise FileNotFoundError
      | _ :: rparent =>
          fs1 ← mkdir_parents fs rparent true;
          mkdir_plain fs1 (rev rkey) exist_ok
      end
  | Raise e => mkdir_failed fs (rev rkey) exist_ok e
  end.

(** [p.mkdir(parents=parents, exist_ok=exist_ok)]. *)
Definition mkdir (fs : filesystem) (p : Path) (parents exist_ok : bool)
    : result filesystem :=
  if parents then mkdir_parents fs (rev (locate fs p)) exist_ok
  else mkdir_plain fs (locate fs p) exist_ok.

(** ** [DreamDist]: loading and saving *)

Module DreamDistOps.

Import Generics.

(** The keyword arguments that [load_configs_with_default_filenames]
    collects for the constructor: a key that is absent is [None]. *)
Record kwargs : Type := mkKwargs {
  kw_pipeline_conf : option PipelineGenerics.PipelineConf;
  kw_compose_override : option (Compose Override);
  kw_compose_dev : option (Compose Dev);
  kw_compose_proxy : option (Compose Proxy);
  kw_compose_local : option (Compose Local)
}.

(** [if flag: kwargs[key] = Cls.from_dist(dist_path)]. *)
Definition load_kind {C} `{DreamConfig C} (flag : bool) (fs : filesystem)
    (dist_path : pathlike) : result (option C) :=
  if flag then Some <$> from_dist fs (to_Path dist_path) else Ok None.

(** [v.filter_services(service_names, inplace=True)] on the pipeline
    entry, if there is one. *)
Definition filter_pipeline (service_names : list string)
    (v : option PipelineGenerics.PipelineConf)
    : result (option PipelineGenerics.PipelineConf) :=
  match v with
  | Some c =>
      r ← DreamPipeline.filter_services c (Some service_names) None true;
      Ok (Some (value r))
  | None => Ok None
  end.

(** The same on a compose entry. *)
Definition filter_compose {k} (service_names : list string)
    (v : option (Compose k)) : option (Compose k) :=
  (fun c =>
     value (YmlDreamConfig.filter_services c (Some service_names) None true))
  <$> v.

Definition load_configs_with_default_filenames (fs : filesystem)
    (dist_path : pathlike)
    (pipeline_conf compose_override compose_dev compose_proxy
       compose_local : bool)
    (service_names : option (list string)) : result kwargs :=
  p ← load_kind (C := PipelineGenerics.PipelineConf) pipeline_conf fs dist_path;
  o ← load_kind (C := Compose Override) compose_override fs dist_path;
  d ← load_kind (C := Compose Dev) compose_dev fs dist_path;
  x ← load_kind (C := Compose Proxy) compose_proxy fs dist_path;
  l ← load_kind (C := Compose Local) compose_local fs dist_path;
  match service_names with
  | Some (n :: rest) =>
      let service_names := n :: rest in
      p' ← filter_pipeline service_names p;
      Ok (mkKwargs p' (filter_compose service_names o)
            (filter_compose service_names d) (filter_compose service_names x)
            (filter_compose service_names l))
  | _ => Ok (mkKwargs p o d x l)
  end.

(** [DreamDist.__init__]. *)
Definition init (dist_path : pathlike) (name : string) (dream_root : pathlike)
    (kw : kwargs) : DreamDist.t :=
  {| DreamDist.dist_path := to_Path dist_path;
     DreamDist.name := name;
     DreamDist.dream_root := dream_root;
     DreamDist.pipeline_conf := kw_pipeline_conf kw;
     DreamDist.compose_override := kw_compose_override kw;
     DreamDist.compose_dev := kw_compose_dev kw;
     DreamDist.compose_proxy := kw_compose_proxy kw;
     DreamDist.compose_local := kw_compose_local kw |}.

Definition from_name (fs : filesystem) (name : string) (dream_root : pathlike)
    (pipeline_conf compose_override compose_dev compose_proxy
       compose_local : bool) : result DreamDist.t :=
  '(dist_path, name, dream_root) ←
    DreamDist.resolve_all_paths fs None (Some name) (Some dream_root);
  cls_kwargs ←
    load_configs_with_default_filenames fs dist_path pipeline_conf
      compose_override compose_dev compose_proxy compose_local None;
  Ok (init dist_path name dream_root cls_kwargs).

Definition from_dist (fs : filesystem) (dist_path : option pathlike)
    (pipeline_conf compose_override compose_dev compose_proxy
       compose_local : bool) : result DreamDist.t :=
  '(dist_path, name, dream_root) ←
    DreamDist.resolve_all_paths fs dist_path None None;
  cls_kwargs ←
    load_configs_with_default_filenames fs dist_path pipeline_conf
      compose_override compose_dev compose_proxy compose_local None;
  Ok (init dist_path name dream_root cls_kwargs).

Definition from_template (fs : filesystem) (name : string)
    (dream_root : pathlike) (template_dist_name : string)
    (service_names : option (list string))
    (pipeline_conf compose_override compose_dev compose_proxy
       compose_local : bool) : result DreamDist.t :=
  '(dist_path, name, dream_root) ←
    DreamDist.resolve_all_paths fs None (Some name) (Some dream_root);
  cls_kwargs ←
    load_configs_with_default_filenames fs
      (AsPath (DreamDist.resolve_dist_path template_dist_name dream_root))
      pipeline_conf compose_override compose_dev compose_proxy compose_local
      service_names;
  Ok (init dist_path name dream_root cls_kwargs).

(** One turn of the loop of [save] for a member that may be [None]:
    [iter_configs] skips it, otherwise its path is appended. *)
Definition save_config {C} `{DreamConfig C} (config : option C)
    (dist_path : Path) (overwrite : bool) (st : list Path * filesystem)
    : result (list Path * filesystem) :=
  match config with
  | None => Ok st
  | Some c =>
      r ← to_dist c dist_path overwrite st.2;
      Ok ((st.1 ++ [r.1])%list, r.2)
  end.

Definition save (self : DreamDist.t) (overwrite : bool) (fs : filesystem)
    : result (list Path * filesystem) :=
  let dist_path := DreamDist.dist_path self in
  fs ← mkdir fs dist_path true overwrite;
  st ← save_config (DreamDist.pipeline_conf self) dist_path overwrite ([], fs);
  st ← save_config (DreamDist.compose_override self) dist_path overwrite st;
  st ← save_config (DreamDist.compose_dev self) dist_path overwrite st;
  st ← save_config (DreamDist.compose_proxy self) dist_path overwrite st;
  st ← save_config (DreamDist.compose_local self) dist_path overwrite st;
  Ok st.

(** The paths [save] writes, in its order. *)
Definition config_paths (self : DreamDist.t) : list Path :=
  let at_dist (held : bool) (file : string) :=
    if held then [DreamDist.dist_path self </> file] else [] in
  (at_dist (bool_decide (is_Some (DreamDist.pipeline_conf self)))
     "pipeline_conf.json"
   ++ at_dist (bool_decide (is_Some (DreamDist.compose_override self)))
        "docker-compose.override.yml"
   ++ at_dist (bool_decide (is_Some (DreamDist.compose_dev self))) "dev.yml"
   ++ at_dist (bool_decide (is_Some (DreamDist.compose_proxy self))) "proxy.yml"
   ++ at_dist (bool_decide (is_Some (DreamDist.compose_local self)))
        "local.yml")%list.

Section AddDffSkill.

(** [shutil.copytree(src, dst)], left open. *)
Variable copytree : filesystem -> Path -> Path -> result filesystem.

Definition add_dff_skill (self : DreamDist.t) (name : string) (fs : filesystem)
    : result (Path * filesystem) :=
  let skill_dir := to_Path (DreamDist.dream_root self) </> "skills" </> name in
  if path_exists fs skill_dir then Raise FileExistsError
  else
    fs' ← copytree fs
            (Pathlib.of_str "deeppavlov_dreamtools/static/dff_template_skill")
            skill_dir;
    Ok (skill_dir, fs').

End AddDffSkill.

End DreamDistOps.

(** ** Further notions on the pipeline *)

(** Whether one entry passes [_filter_connectors_by_name]. *)
Definition connector_kept (names exclude_names : list string)
    (v : PipelineGenerics.PipelineConfConnector) : bool :=
  opt_truthy (PipelineGenerics.url v)
  && match _parse_connector_url (PipelineGenerics.url v) with
     | Ok (host, _, _) =>
         opt_in host names && negb (opt_in host exclude_names)
     | Raise _ => false
     end.

(** The dictionaries of a pipeline document have no repeated key. *)
Definition well_keyed (self : PipelineGenerics.PipelineConf) : Prop :=
  NoDup (Dict.keys (PipelineGenerics.connectors self))
  /\ Forall (fun d => NoDup (Dict.keys d))
       (categories (PipelineGenerics.services self)).

(** More sample data. *)

Module Samples2.

Import Generics PipelineGenerics.

Definition sentseg_connector : PipelineConfConnector :=
  {| url := Some "http://sentseg:8011/sentseg";
     connector_fields := [("protocol", RStr "http")] |}.

Definition ner_connector : PipelineConfConnector :=
  {| url := Some "http://ner:8021/ner";
     connector_fields := [("protocol", RStr "http")] |}.

Definition local_connector : PipelineConfConnector :=
  {| url := None; connector_fields := [("protocol", RStr "python")] |}.

Definition connectors_dict : Dict.t PipelineConfConnector :=
  [("sentseg", sentseg_connector);
   ("ner", ner_connector);
   ("local", local_connector)].

Definition pipeline : PipelineConf :=
  {| connectors := connectors_dict;
     services :=
       {| last_chance_service := Some Samples.dummy_skill;
          timeout_service := Some Samples.dummy_skill;
          bot_annotator_selector := None;
          post_annotators := [];
          annotators := [("sentseg_local", Samples.named_service)];
          skill_selectors := [];
          skills := Samples.skills_dict;
          post_skill_selector_annotators := [];
          response_selectors := [] |} |}.

(** [pipeline] filtered for the name ["sentseg"]. *)
Definition sentseg_pipeline : PipelineConf :=
  {| connectors := [("sentseg", sentseg_connector)];
     services :=
       {| last_chance_service := Some Samples.dummy_skill;
          timeout_service := Some Samples.dummy_skill;
          bot_annotator_selector := None;
          post_annotators := [];
          annotators := [];
          skill_selectors := [];
          skills := [];
          post_skill_selector_annotators := [];
          response_selectors := [] |} |}.

(** A distribution ["fresh"] made from the [dev.yml] of ["demo"], with
    two service names. *)
Definition template_copy : DreamDist.t :=
  match
    DreamDistOps.from_template Samples.disk "fresh" (AsStr "/dream") "demo"
      (Some ["agent"; "sentseg"]) false false true false false
  with
  | Ok dist => dist
  | Raise _ => Samples.scenario_dist
  end.

(** What [save] gives for it. *)
Definition saved : list Path * filesystem :=
  match DreamDistOps.save template_copy false Samples.disk with
  | Ok r => r
  | Raise _ => ([], Samples.disk)
  end.

End Samples2.

(** The service names of a compose member that may be missing. *)
Definition compose_names {k} (c : option (Generics.Compose k)) : list string :=
  match c with
  | Some c => Dict.keys (Generics.services c)
  | None => []
  end.


(** The entry above the path is a regular file. *)
Definition parent_is_file (fs : filesystem) (p : Path) : bool :=
  match node_at fs (removelast (locate fs p)) with
  | Some (File _) => true
  | _ => false
  end.

(** [iter_configs] yields something. *)
Definition holds_config (self : DreamDist.t) : Prop :=
  is_Some (DreamDist.pipeline_conf self)
  \/ is_Some (DreamDist.compose_override self)
  \/ is_Some (DreamDist.compose_dev self)
  \/ is_Some (DreamDist.compose_proxy self)
  \/ is_Some (DreamDist.compose_local self).

(** The file at the path holds the serialisation of the config, if there
    is a config. *)
Definition saved_at {C} `{DreamConfig C} (fs : filesystem) (dist_path : Path)
    (config : option C) : Prop :=
  forall c, config = Some c ->
    read_file fs (dist_path </> DEFAULT_FILE_NAME) = Ok (jsonable c).

(** * Properties *)

(** ** Strings *)

Section SplitFacts.

Import PyStr.

Lemma split_scan_not_nil sep maxsplit skip cur s :
  split_scan sep maxsplit skip cur s <> [].
Proof.
  revert maxsplit skip cur.
  induction s as [|c s IH]; intros maxsplit skip cur; simpl; [done|].
  destruct skip; [|apply IH].
  destruct (may_split maxsplit && startswith sep (String c s)); [done|apply IH].
Qed.

Lemma split_scan_last sep maxsplit skip cur s :
  is_Some (last (split_scan sep maxsplit skip cur s)).
Proof.
  destruct (split_scan sep maxsplit skip cur s) as [|x l] eqn:E.
  - by apply split_scan_not_nil in E.
  - rewrite last_is_Some. done.
Qed.

Lemma split_scan_head sep maxsplit skip cur s :
  is_Some (head (split_scan sep maxsplit skip cur s)).
Proof.
  destruct (split_scan sep maxsplit skip cur s) as [|x l] eqn:E.
  - by apply split_scan_not_nil in E.
  - by eexists.
Qed.

Lemma append_cons a s t : String a s +:+ t = String a (s +:+ t).
Proof. reflexivity. Qed.

Lemma append_nil_r s : s +:+ "" = s.
Proof. induction s as [|a s IH]; [done|]. by rewrite append_cons, IH. Qed.

Lemma append_assoc_char cur c s :
  (cur +:+ String c "") +:+ s = cur +:+ String c s.
Proof.
  induction cur as [|a cur IH]; [done|].
  by rewrite !append_cons, IH.
Qed.

(** Splitting on one character cuts at each of its occurrences. *)
Lemma split_char_length c cur s :
  length (split_scan (String c "") None 0 cur s) = S (count_char c s).
Proof.
  revert cur. induction s as [|a s IH]; intros cur; simpl; [done|].
  rewrite Ascii.eqb_sym.
  destruct (Ascii.eqb a c); simpl; by rewrite IH.
Qed.

(** Joining the pieces with the character gives the string back. *)
Lemma split_char_join c cur s :
  join (String c "") (split_scan (String c "") None 0 cur s) = cur +:+ s.
Proof.
  revert cur. induction s as [|a s IH]; intros cur; simpl.
  { by rewrite append_nil_r. }
  destruct (Ascii.eqb c a) eqn:E; simpl.
  - apply Ascii.eqb_eq in E as ->.
    pose proof (split_scan_not_nil (String a "") None 0 "" s) as Hn.
    destruct (split_scan (String a "") None 0 "" s) as [|x l] eqn:Es; [done|].
    rewrite <- Es, IH. done.
  - rewrite IH. apply append_assoc_char.
Qed.

End SplitFacts.

(** ** The connector URL parser *)

(** On a non-empty URL the parser comes down to unpacking the host
    segment split at the colons. *)
Lemma parse_connector_url_truthy u :
  PyStr.truthy u = true ->
  _parse_connector_url (Some u) =
    hp ← unpack2 (PyStr.split_scan ":" None 0 "" (host_segment u));
    Ok (Some hp.1, Some hp.2, Some (endpoint_segment u)).
Proof.
  intros Hu. unfold _parse_connector_url, host_segment, endpoint_segment.
  rewrite Hu. simpl.
  destruct (split_scan_last "//" None 0 "" u) as [rest Hrest].
  unfold py_last. rewrite Hrest. simpl.
  destruct (split_scan_head "/" (Some 1) 0 "" rest) as [hostport Hhp].
  unfold py_index. rewrite <- head_lookup, Hhp. simpl.
  by destruct (unpack2 _) as [[h p']|e].
Qed.

Lemma unpack2_length {A} (l : list A) :
  (length l = 2 -> exists a b, l = [a; b] /\ unpack2 l = Ok (a, b))
  /\ (length l <> 2 -> unpack2 l = Raise ValueError).
Proof.
  destruct l as [|a [|b [|c l]]]; simpl; split; try done; eauto.
Qed.

(** The parser raises nothing but [ValueError]. *)
Lemma parse_connector_url_raises url e :
  _parse_connector_url url = Raise e -> e = ValueError.
Proof.
  destruct url as [u|]; [|done].
  destruct (PyStr.truthy u) eqn:Hu.
  - rewrite parse_connector_url_truthy by done.
    destruct (PyStr.split_scan ":" None 0 "" (host_segment u))
      as [|a [|b [|c l]]]; simpl; congruence.
  - unfold _parse_connector_url. rewrite Hu. done.
Qed.

(** C7: the three reference cases of the connector URL parser. *)
Theorem parse_connector_url_reference_cases :
  _parse_connector_url (Some "http://annotator:8080/respond")
    = Ok (Some "annotator", Some "8080", Some "respond")
  /\ _parse_connector_url (Some "annotator:8080")
    = Ok (Some "annotator", Some "8080", Some "")
  /\ _parse_connector_url None = Ok (None, None, None).
Proof. repeat split; vm_compute; reflexivity. Qed.

(** C8, as stated, fails: a URL with a scheme and a host but no port does
    not parse to a triple with the port absent. *)
Lemma parse_connector_url_no_port_counterexample :
  ~ parses_without_port "http://annotator".
Proof.
  intros Hc. destruct Hc as (host & endpoint & Hp); [done|done|].
  vm_compute in Hp. discriminate.
Qed.

(** C8, amended: on a non-empty URL the parser returns a triple, with all
    three components present, exactly when the host segment contains one
    colon, which then separates host and port; with no colon, or more
    than one, it raises [ValueError]. *)
Theorem parse_connector_url_needs_port (u : string) :
  PyStr.truthy u = true ->
  (PyStr.count_char ":" (host_segment u) = 1 ->
   exists host port,
     _parse_connector_url (Some u)
       = Ok (Some host, Some port, Some (endpoint_segment u))
     /\ host_segment u = host +:+ ":" +:+ port)
  /\ (PyStr.count_char ":" (host_segment u) <> 1 ->
      _parse_connector_url (Some u) = Raise ValueError).
Proof.
  intros Hu. rewrite parse_connector_url_truthy by done.
  pose proof (split_char_length ":" "" (host_segment u)) as Hlen.
  pose proof (split_char_join ":" "" (host_segment u)) as Hjoin.
  destruct (unpack2_length (PyStr.split_scan ":" None 0 "" (host_segment u)))
    as [H2 Hn2].
  split; intros Hc.
  - destruct H2 as (host & port & Hl & Hunpack); [lia|].
    exists host, port. rewrite Hunpack. split; [done|].
    rewrite Hl in Hjoin. simpl in Hjoin. done.
  - rewrite Hn2 by lia. done.
Qed.

(** The same on the first reference URL. *)
Lemma parse_connector_url_needs_port_witness :
  (PyStr.count_char ":" (host_segment "http://annotator:8080/respond") = 1 ->
   exists host port,
     _parse_connector_url (Some "http://annotator:8080/respond")
       = Ok (Some host, Some port,
             Some (endpoint_segment "http://annotator:8080/respond"))
     /\ host_segment "http://annotator:8080/respond" = host +:+ ":" +:+ port)
  /\ (PyStr.count_char ":" (host_segment "http://annotator:8080/respond") <> 1 ->
      _parse_connector_url (Some "http://annotator:8080/respond")
        = Raise ValueError).
Proof.
  apply (parse_connector_url_needs_port "http://annotator:8080/respond").
  reflexivity.
Defined.

(** ** Dictionaries *)

Section DictFacts.

Context {V : Type}.
Implicit Types (d : Dict.t V) (k : string) (v : V).

Lemma dict_get_Some_elem k v d : Dict.get k d = Some v -> (k, v) ∈ d.
Proof.
  induction d as [|[k' v'] d IH]; simpl; [done|].
  destruct (decide (k' = k)) as [->|Hne]; intros Hg.
  - injection Hg as ->. apply list_elem_of_here.
  - apply list_elem_of_further. by apply IH.
Qed.

Lemma dict_get_None k d : Dict.get k d = None <-> k ∉ Dict.keys d.
Proof.
  unfold Dict.keys. induction d as [|[k' v'] d IH]; simpl.
  - split; [intros _; apply not_elem_of_nil|done].
  - rewrite not_elem_of_cons. destruct (decide (k' = k)) as [->|Hne].
    + split; [done|]. intros [? _]. done.
    + rewrite IH. split; [intros ?; split; [congruence|done]|by intros [_ ?]].
Qed.

Lemma dict_elem_key k v d : (k, v) ∈ d -> k ∈ Dict.keys d.
Proof.
  intros Hin. unfold Dict.keys. apply list_elem_of_In.
  apply (in_map fst d (k, v)). by apply list_elem_of_In.
Qed.

Lemma dict_get_set k k' v d :
  Dict.get k' (Dict.set k v d) = if decide (k = k') then Some v else Dict.get k' d.
Proof.
  induction d as [|[k0 v0] d IH]; simpl.
  - by destruct (decide (k = k')).
  - destruct (decide (k0 = k)) as [->|Hne]; simpl.
    + by destruct (decide (k = k')).
    + destruct (decide (k0 = k')) as [->|Hne'].
      * destruct (decide (k = k')); [congruence|done].
      * apply IH.
Qed.

Lemma dict_keys_set k v d :
  Dict.keys (Dict.set k v d) =
    if decide (k ∈ Dict.keys d) then Dict.keys d else (Dict.keys d ++ [k])%list.
Proof.
  unfold Dict.keys. induction d as [|[k0 v0] d IH]; simpl.
  - destruct (decide (k ∈ [])) as [Hin|_]; [by apply not_elem_of_nil in Hin|done].
  - destruct (decide (k0 = k)) as [->|Hne]; simpl.
    + rewrite decide_True by apply list_elem_of_here. done.
    + rewrite IH. destruct (decide (k ∈ List.map fst d)) as [Hin|Hnin].
      * rewrite decide_True by (by apply list_elem_of_further). done.
      * rewrite decide_False; [done|].
        intros [->|?]%elem_of_cons; done.
Qed.

Lemma dict_get_filter_keys keep k d :
  Dict.get k (Dict.filter_keys keep d) = if keep k then Dict.get k d else None.
Proof.
  unfold Dict.filter_keys. induction d as [|[k0 v0] d IH]; simpl.
  - by destruct (keep k).
  - destruct (keep k0) eqn:Hk0; simpl.
    + destruct (decide (k0 = k)) as [->|Hne]; [by rewrite Hk0|apply IH].
    + destruct (decide (k0 = k)) as [->|Hne]; [by rewrite IH, Hk0|apply IH].
Qed.

Lemma dict_keys_filter_keys keep d :
  Dict.keys (Dict.filter_keys keep d) = List.filter keep (Dict.keys d).
Proof.
  unfold Dict.keys, Dict.filter_keys.
  induction d as [|[k0 v0] d IH]; simpl; [done|].
  destruct (keep k0); simpl; by rewrite IH.
Qed.

Lemma dict_filter_keys_ext keep keep' d :
  (forall k, k ∈ Dict.keys d -> keep k = keep' k) ->
  Dict.filter_keys keep d = Dict.filter_keys keep' d.
Proof.
  intros Hext. unfold Dict.filter_keys. apply List.filter_ext_in.
  intros [k v] Hin. simpl. apply Hext.
  apply (dict_elem_key k v). by apply list_elem_of_In.
Qed.

Lemma dict_get_map_values {W} (f : V -> W) k d :
  Dict.get k (Dict.map_values f d) = f <$> Dict.get k d.
Proof.
  unfold Dict.map_values. induction d as [|[k0 v0] d IH]; simpl; [done|].
  by destruct (decide (k0 = k)).
Qed.

Lemma dict_keys_map_values {W} (f : V -> W) d :
  Dict.keys (Dict.map_values f d) = Dict.keys d.
Proof.
  unfold Dict.keys, Dict.map_values.
  induction d as [|[k0 v0] d IH]; simpl; [done|]. by rewrite IH.
Qed.

End DictFacts.

(** ** [YmlDreamConfig.filter_services] *)

Lemma py_or_keys {A} (l : list A) : py_or (Some l) l = l.
Proof. by destruct l. Qed.

(** C10: on a compose document an include list that is missing or empty
    stands for all of the document's service names, and the result keeps
    every service that is not excluded. *)
Theorem compose_filter_services_default_include
    (k : Generics.compose_kind) (self : Generics.Compose k)
    (exclude_names : option (list string)) (inplace : bool) :
  let all_names := Some (Dict.keys (Generics.services self)) in
  let kept :=
    Generics.compose_validate k (Generics.version self)
      (Dict.filter_keys
         (fun n => negb (bool_decide (n ∈ py_or exclude_names [])))
         (Generics.services self)) in
  YmlDreamConfig.filter_services self None exclude_names inplace
    = YmlDreamConfig.filter_services self all_names exclude_names inplace
  /\ YmlDreamConfig.filter_services self (Some []) exclude_names inplace
    = YmlDreamConfig.filter_services self all_names exclude_names inplace
  /\ value (YmlDreamConfig.filter_services self None exclude_names inplace)
    = kept
  /\ value (YmlDreamConfig.filter_services self (Some []) exclude_names inplace)
    = kept.
Proof.
  intros all_names kept. subst all_names kept.
  unfold YmlDreamConfig.filter_services. rewrite py_or_keys. simpl.
  assert (Dict.filter_keys
            (fun n => bool_decide (n ∈ Dict.keys (Generics.services self))
                      && negb (bool_decide (n ∈ py_or exclude_names [])))
            (Generics.services self)
          = Dict.filter_keys
              (fun n => negb (bool_decide (n ∈ py_or exclude_names [])))
              (Generics.services self)) as ->.
  { apply dict_filter_keys_ext. intros n Hn.
    by rewrite (bool_decide_eq_true_2 _ Hn). }
  by destruct inplace.
Qed.

(** ** Writing files *)

Section WriteFacts.

Implicit Types (fs : filesystem) (p : Path) (data : raw).

Lemma is_dir_path_exists fs p : is_dir fs p = true -> path_exists fs p = true.
Proof.
  unfold is_dir, path_exists. by destruct (node_at fs (locate fs p)) as [[]|].
Qed.

Lemma is_file_path_exists fs p : is_file fs p = true -> path_exists fs p = true.
Proof.
  unfold is_file, path_exists. by destruct (node_at fs (locate fs p)) as [[]|].
Qed.

(** Mode ["w"] replaces a file that is there. *)
Lemma write_file_w_existing fs p data :
  check_parent fs (locate fs p) = Ok () ->
  is_file fs p = true ->
  write_file ModeW fs p data = Ok (store fs (locate fs p) data).
Proof.
  intros Hpar Hfile. unfold write_file. rewrite Hpar. simpl.
  unfold is_file in Hfile.
  by destruct (node_at fs (locate fs p)) as [[]|].
Qed.

(** Mode ["x"] refuses a path that is there. *)
Lemma write_file_x_existing fs p data :
  check_parent fs (locate fs p) = Ok () ->
  path_exists fs p = true ->
  write_file ModeX fs p data = Raise FileExistsError.
Proof.
  intros Hpar Hex. unfold write_file. rewrite Hpar. simpl.
  unfold path_exists in Hex.
  by destruct (node_at fs (locate fs p)) as [[]|].
Qed.

Lemma removelast_shorter {A} (l : list A) : l <> [] -> removelast l <> l.
Proof.
  intros Hl Heq. apply (f_equal length) in Heq. revert Hl Heq.
  induction l as [|a [|b l] IH]; simpl in *; intros Hl Heq; [done|done|].
  apply IH; [done|lia].
Qed.

(** A successful write leaves a file at the path, in a directory. *)
Lemma write_file_Ok mode fs p data fs' :
  write_file mode fs p data = Ok fs' ->
  fs' = store fs (locate fs p) data
  /\ is_file fs' p = true
  /\ check_parent fs' (locate fs' p) = Ok ().
Proof.
  unfold write_file. intros Hw.
  destruct (check_parent fs (locate fs p)) as [[]|e] eqn:Hpar; [|done].
  simpl in Hw.
  assert (locate fs p <> []) as Hkey.
  { intros Hnil. rewrite Hnil in Hw. by destruct mode. }
  assert (fs' = store fs (locate fs p) data) as ->.
  { destruct mode, (node_at fs (locate fs p)) as [[]|]; congruence. }
  assert (locate (store fs (locate fs p) data) p = locate fs p) as Hloc by done.
  split; [done|]. unfold is_file, check_parent. rewrite Hloc.
  unfold node_at at 1. destruct (locate fs p) as [|c key] eqn:Hk; [done|].
  rewrite <- Hk in *. simpl. rewrite lookup_insert_eq. split; [done|].
  unfold check_parent in Hpar. unfold node_at in *.
  destruct (removelast (locate fs p)) as [|c' key'] eqn:Hrl; [done|].
  simpl. rewrite lookup_insert_ne; [done|].
  rewrite <- Hrl. apply not_eq_sym, removelast_shorter. done.
Qed.

End WriteFacts.

(** ** The overwrite flag of [dump] *)

Section DumpFacts.

Context {C : Type} `{DreamConfig C}.

Lemma dump_unfold data path overwrite fs :
  dump data path overwrite fs =
    fs' ← write_file (if overwrite then ModeX else ModeW) fs path data;
    Ok (path, fs').
Proof. unfold dump. by destruct base_class. Qed.

(** With [overwrite=True] a second [dump] to the same path raises. *)
Lemma dump_twice_overwrite data data' path fs fs' path' :
  dump data path true fs = Ok (path', fs') ->
  dump data' path true fs' = Raise FileExistsError.
Proof.
  rewrite !dump_unfold. intros Hd.
  destruct (write_file ModeX fs path data) as [fs1|e] eqn:Hw; [|done].
  injection Hd as _ <-.
  apply write_file_Ok in Hw as (_ & Hfile & Hpar).
  rewrite write_file_x_existing; [done|done|by apply is_file_path_exists].
Qed.

(** With [overwrite=False] a second [dump] to the same path goes
    through and replaces what the first one wrote. *)
Lemma dump_twice_no_overwrite data data' path fs fs' path' :
  dump data path false fs = Ok (path', fs') ->
  dump data' path false fs' = Ok (path, store fs' (locate fs' path) data').
Proof.
  rewrite !dump_unfold. intros Hd.
  destruct (write_file ModeW fs path data) as [fs1|e] eqn:Hw; [|done].
  injection Hd as _ <-.
  apply write_file_Ok in Hw as (_ & Hfile & Hpar).
  by rewrite write_file_w_existing.
Qed.

End DumpFacts.

(** On a file that exists, in a directory, [dump] overwrites it without
    [overwrite] and raises [FileExistsError] with it. *)
Lemma dump_existing_file {C} `{DreamConfig C} data path fs :
  is_file fs path = true ->
  check_parent fs (locate fs path) = Ok () ->
  dump data path false fs = Ok (path, store fs (locate fs path) data)
  /\ dump data path true fs = Raise FileExistsError.
Proof.
  intros Hfile Hpar. rewrite !dump_unfold.
  rewrite write_file_w_existing, write_file_x_existing;
    auto using is_file_path_exists.
Qed.

(** C1: the code has the flag the other way round. On a [dev.yml] and a
    [pipeline_conf.json] that exist, writing without [overwrite] replaces
    the file and writing with [overwrite] raises [FileExistsError]; on a
    fresh tree, two writes with [overwrite] succeed and then raise, two
    writes without it both succeed. *)
Theorem dump_overwrite_flag_inverted :
  let dev_yml := Samples.dist_dir </> "dev.yml" in
  let pipeline_json := Samples.dist_dir </> "pipeline_conf.json" in
  to_dist Samples.dev_doc Samples.dist_dir false Samples.disk
    = Ok (dev_yml,
          store Samples.disk (locate Samples.disk dev_yml)
            (jsonable Samples.dev_doc))
  /\ to_dist Samples.dev_doc Samples.dist_dir true Samples.disk
    = Raise FileExistsError
  /\ to_path Samples.pipeline_doc pipeline_json false Samples.disk
    = Ok (pipeline_json,
          store Samples.disk (locate Samples.disk pipeline_json)
            (jsonable Samples.pipeline_doc))
  /\ to_path Samples.pipeline_doc pipeline_json true Samples.disk
    = Raise FileExistsError
  /\ (r ← to_dist Samples.dev_doc Samples.dist_dir true Samples.fresh_disk;
      to_dist Samples.dev_doc Samples.dist_dir true r.2)
    = Raise FileExistsError
  /\ is_ok (r ← to_dist Samples.dev_doc Samples.dist_dir false Samples.fresh_disk;
            to_dist Samples.dev_doc Samples.dist_dir false r.2)
    = true.
Proof.
  intros dev_yml pipeline_json. unfold to_dist, to_path.
  destruct (dump_existing_file (C := Generics.Compose Generics.Dev)
              (jsonable Samples.dev_doc) dev_yml Samples.disk) as [Hw Hx];
    [by vm_compute..|].
  destruct (dump_existing_file (C := PipelineGenerics.PipelineConf)
              (jsonable Samples.pipeline_doc) pipeline_json Samples.disk)
    as [Hw' Hx']; [by vm_compute..|].
  do 4 (split; [assumption|]). split.
  - destruct (dump (jsonable Samples.dev_doc)
                (Samples.dist_dir </> DEFAULT_FILE_NAME) true Samples.fresh_disk)
      as [[p' fs']|e] eqn:Hd; [|by vm_compute in Hd].
    simpl. by eapply dump_twice_overwrite.
  - destruct (dump (jsonable Samples.dev_doc)
                (Samples.dist_dir </> DEFAULT_FILE_NAME) false Samples.fresh_disk)
      as [[p' fs']|e] eqn:Hd; [|by vm_compute in Hd].
    simpl. by erewrite dump_twice_no_overwrite.
Qed.

(** ** Loading *)

(** [from_path] passes the loaded data as keyword arguments: unless the
    data is a mapping with the single key ["obj"], the call raises
    [TypeError] before any validation. *)
Lemma from_path_TypeError {C} `{DreamConfig C} fs path data :
  load fs path = Ok data ->
  (forall v, data <> RDict [("obj", v)]) ->
  from_path fs path = Raise TypeError.
Proof.
  intros Hload Hdata. unfold from_path. rewrite Hload. simpl.
  destruct data as [| | | | |[|[k v] [|]]]; simpl; try done.
  destruct (decide (k = "obj")) as [->|]; [|done]. by destruct (Hdata v).
Qed.

(** When [from_path] does return, the file held a mapping with the single
    key ["obj"] and the document comes from under that key. *)
Lemma from_path_Ok {C} `{DreamConfig C} fs path config :
  from_path fs path = Ok config ->
  exists v, load fs path = Ok (RDict [("obj", v)]) /\ parse_obj v = Ok config.
Proof.
  unfold from_path. destruct (load fs path) as [data|e]; [|done]. simpl.
  destruct data as [| | | | |[|[k v] [|]]]; simpl; try done.
  destruct (decide (k = "obj")) as [->|]; [|done].
  destruct (parse_obj v) as [cfg|e] eqn:Hp; [|done]. simpl.
  intros [= <-]. eauto.
Qed.

(** On the same content the two loaders of a compose kind never both
    return a document. *)
Lemma compose_from_path_from_dist_disagree (k : Generics.compose_kind)
    `{Hcfg : DreamConfig (Generics.Compose k)} fs path dist_path :
  parse_obj = Generics.compose_of_raw k ->
  load fs path = load fs (resolve fs dist_path </> DEFAULT_FILE_NAME) ->
  is_ok (from_path fs path) && is_ok (from_dist fs dist_path) = false.
Proof.
  intros Hparse Hsame.
  destruct (from_path fs path) as [c1|e] eqn:Hp; [|done].
  apply from_path_Ok in Hp as (v & Hload & _).
  unfold from_dist. rewrite <- Hsame, Hload, Hparse. done.
Qed.

(** C5: [from_path] on a well-formed [dev.yml] raises [TypeError], while
    [from_dist] on the directory that holds the same file returns the
    document. *)
Theorem from_path_rejects_valid_document :
  load (C := Generics.Compose Generics.Dev) Samples.disk
      (Samples.dist_dir </> "dev.yml")
    = Ok Samples.dev_raw
  /\ from_path (C := Generics.Compose Generics.Dev) Samples.disk
      (Samples.dist_dir </> "dev.yml")
    = Raise TypeError
  /\ from_dist Samples.disk Samples.dist_dir = Ok Samples.dev_doc.
Proof.
  split; [by vm_compute|]. split.
  - apply (from_path_TypeError _ _ Samples.dev_raw); [by vm_compute|done].
  - by vm_compute.
Qed.

(** ** Resolving paths *)

(** The directory test never fires: a path that does not exist is not a
    directory either. *)
Lemma check_distribution_never_NotADirectoryError fs dist_path :
  DreamDist.check_distribution fs dist_path <> Raise NotADirectoryError.
Proof.
  destruct dist_path as [s|p]; simpl; [done|].
  destruct (is_dir fs p) eqn:Hd.
  - by rewrite (is_dir_path_exists _ _ Hd).
  - by rewrite andb_false_r.
Qed.

Lemma bind_never_raises {A B} (m : result A) (k : A -> result B) e :
  m <> Raise e -> (forall a, k a <> Raise e) -> m ≫= k <> Raise e.
Proof. intros Hm Hk. destruct m as [a|e']; simpl; [apply Hk|congruence]. Qed.

(** C6: [resolve_all_paths] never raises [NotADirectoryError]; for a
    distribution name that has no directory under the Dream root it
    returns the triple. *)
Theorem resolve_all_paths_accepts_missing_directory :
  (forall fs dist_path name dream_root,
     DreamDist.resolve_all_paths fs dist_path name dream_root
       <> Raise NotADirectoryError)
  /\ is_dir Samples.disk (Pathlib.of_str "/dream/assistant_dists/missing") = false
  /\ DreamDist.resolve_all_paths Samples.disk None (Some "missing")
       (Some (AsStr "/dream"))
     = Ok (AsPath (Pathlib.of_str "/dream/assistant_dists/missing"),
           "missing", AsStr "/dream")
  /\ DreamDist.resolve_all_paths Samples.disk
       (Some (AsPath (Pathlib.of_str "/dream/assistant_dists/missing")))
       None None
     = Ok (AsPath (Pathlib.of_str "/dream/assistant_dists/missing"),
           "missing", AsPath (Pathlib.of_str "/dream")).
Proof.
  split; [|by vm_compute].
  intros fs dist_path name dream_root. unfold DreamDist.resolve_all_paths.
  apply bind_never_raises.
  - destruct (truthy_pathlike dist_path) as [dp|].
    + unfold DreamDist.resolve_name_and_dream_root, Pathlib.parents.
      by case_decide.
    + by destruct (truthy_str name), (truthy_pathlike dream_root).
  - intros [[dp n] r]. apply bind_never_raises; [|done].
    apply check_distribution_never_NotADirectoryError.
Qed.

(** ** The pipeline filter *)

Lemma for_each_Raise {A S} (body : A -> S -> result S) items st e :
  for_each body items st = Raise e ->
  exists x st', x ∈ items /\ body x st' = Raise e.
Proof.
  revert st. induction items as [|x items IH]; intros st; simpl; [done|].
  destruct (body x st) as [st'|e'] eqn:Hb; simpl.
  - intros Hr. destruct (IH _ Hr) as (y & st'' & Hin & Hy).
    exists y, st''. split; [by apply list_elem_of_further|done].
  - intros [= ->]. exists x, st. split; [apply list_elem_of_here|done].
Qed.

Lemma guarded_parse_Raise {S} (u : option string) (k : url_triple -> result S)
    (st : S) e :
  (forall t, k t <> Raise e) ->
  (if opt_truthy u then _parse_connector_url u ≫= k else Ok st) = Raise e ->
  e = ValueError /\ bad_url u.
Proof.
  intros Hk. destruct (opt_truthy u) eqn:Hu; [|done].
  destruct (_parse_connector_url u) as [t|e'] eqn:Hp; simpl.
  - intros Hr. by destruct (Hk t).
  - intros [= ->]. pose proof (parse_connector_url_raises _ _ Hp) as ->.
    by split.
Qed.

Lemma filter_connector_step_Raise names exclude_names k v acc e :
  DreamPipeline.filter_connector_step names exclude_names (k, v) acc = Raise e ->
  e = ValueError /\ bad_url (PipelineGenerics.url v).
Proof.
  unfold DreamPipeline.filter_connector_step. apply guarded_parse_Raise.
  intros [[host port] endpoint]. by destruct (_ && _).
Qed.

Lemma filter_service_step_Raise names exclude_names k v acc e :
  DreamPipeline.filter_service_step names exclude_names (k, v) acc = Raise e ->
  e = ValueError /\ bad_url (service_url v).
Proof.
  unfold DreamPipeline.filter_service_step, service_url,
    PipelineGenerics.connector_url_attr.
  destruct (PipelineGenerics.connector v) as [ref|c].
  - by destruct (bool_decide _).
  - apply guarded_parse_Raise.
    intros [[host port] endpoint]. by destruct (_ && _).
Qed.

Lemma filter_connectors_by_name_Raise d names exclude_names e :
  DreamPipeline._filter_connectors_by_name d names exclude_names = Raise e ->
  e = ValueError /\ exists k v, (k, v) ∈ d /\ bad_url (PipelineGenerics.url v).
Proof.
  intros Hr. apply for_each_Raise in Hr as ([k v] & acc & Hin & Hstep).
  apply filter_connector_step_Raise in Hstep as [-> Hbad]. eauto.
Qed.

Lemma filter_services_by_name_Raise d names exclude_names e :
  DreamPipeline._filter_services_by_name d names exclude_names = Raise e ->
  e = ValueError /\ exists k v, (k, v) ∈ d /\ bad_url (service_url v).
Proof.
  intros Hr. apply for_each_Raise in Hr as ([k v] & acc & Hin & Hstep).
  apply filter_service_step_Raise in Hstep as [-> Hbad]. eauto.
Qed.

Lemma dict_set_fresh {V} k (v : V) d :
  k ∉ Dict.keys d -> Dict.set k v d = (d ++ [(k, v)])%list.
Proof.
  unfold Dict.keys. induction d as [|[k0 v0] d IH]; simpl; [done|].
  rewrite not_elem_of_cons. intros [Hne Hnin].
  destruct (decide (k0 = k)); [congruence|]. by rewrite IH.
Qed.

(** A loop that adds the entries passing a test to a fresh dictionary
    computes a filter. *)
Lemma for_each_filter {V} (step : string * V -> Dict.t V -> result (Dict.t V))
    (keep : string -> V -> bool) :
  (forall k v acc acc',
     step (k, v) acc = Ok acc' ->
     acc' = if keep k v then Dict.set k v acc else acc) ->
  forall items acc r,
    for_each step items acc = Ok r ->
    NoDup (Dict.keys items) ->
    (forall k, k ∈ Dict.keys items -> k ∉ Dict.keys acc) ->
    r = (acc ++ List.filter (fun kv => keep kv.1 kv.2) items)%list.
Proof.
  intros Hstep. induction items as [|[k v] items IH]; intros acc r; simpl.
  - intros [= <-] _ _. by rewrite app_nil_r.
  - destruct (step (k, v) acc) as [acc'|e] eqn:Hs; [|done]. simpl.
    intros Hloop Hnd Hfresh. apply NoDup_cons in Hnd as [Hk Hnd].
    apply Hstep in Hs. apply IH in Hloop; [|done|].
    + subst r acc'. destruct (keep k v); [|done].
      rewrite dict_set_fresh by (apply Hfresh, list_elem_of_here).
      by rewrite <- app_assoc.
    + intros k' Hk'. subst acc'.
      assert (k' ∉ Dict.keys acc) as Hacc
        by (by apply Hfresh, list_elem_of_further).
      destruct (keep k v); [|done].
      rewrite dict_keys_set. rewrite decide_False
        by (apply Hfresh, list_elem_of_here).
      rewrite elem_of_app, list_elem_of_singleton. intros [?| ->]; done.
Qed.

Lemma filter_service_step_Ok names exclude_names k v acc acc' :
  DreamPipeline.filter_service_step names exclude_names (k, v) acc = Ok acc' ->
  acc' = if service_kept names exclude_names k v then Dict.set k v acc else acc.
Proof.
  unfold DreamPipeline.filter_service_step, service_kept,
    PipelineGenerics.connector_url_attr.
  destruct (PipelineGenerics.connector v) as [ref|c].
  - destruct (bool_decide _); congruence.
  - destruct (opt_truthy _); simpl; [|congruence].
    destruct (_parse_connector_url _) as [[[host port] endpoint]|e]; [|done].
    simpl. destruct (_ && _); congruence.
Qed.

(** On a dictionary, [_filter_services_by_name] returns the entries that
    pass [service_kept], in their order. *)
Lemma filter_services_by_name_Ok d names exclude_names r :
  NoDup (Dict.keys d) ->
  DreamPipeline._filter_services_by_name d names exclude_names = Ok r ->
  r = Dict.filter_keys_values (service_kept names exclude_names) d.
Proof.
  intros Hnd Hr.
  apply (for_each_filter _ (service_kept names exclude_names)) in Hr; try done.
  - intros k v acc acc'. apply filter_service_step_Ok.
  - intros k _. apply not_elem_of_nil.
Qed.

(** A category whose filter raised holds a URL that does not parse. *)
Ltac bad_category Hr :=
  let k := fresh "k" in
  let v := fresh "v" in
  let Hin := fresh "Hin" in
  let Hbad := fresh "Hbad" in
  apply filter_services_by_name_Raise in Hr as (-> & k & v & Hin & Hbad);
  split; [reflexivity|]; right;
  refine (ex_intro _ _ (ex_intro _ k (ex_intro _ v (conj _ (conj Hin Hbad)))));
  unfold categories;
  repeat first [apply list_elem_of_here | apply list_elem_of_further].

(** C9: the pipeline filter hands the three singleton services over as
    they are and filters only the connectors and the six categories; it
    returns whenever every URL of the document parses. *)
Theorem pipeline_filter_services_keeps_singletons
    (self : PipelineGenerics.PipelineConf)
    (include_names exclude_names : option (list string)) (inplace : bool) :
  let names := py_or include_names [] in
  let excluded := py_or exclude_names [] in
  match DreamPipeline.filter_services self include_names exclude_names inplace
  with
  | Ok r =>
      let old := PipelineGenerics.services self in
      let new := PipelineGenerics.services (value r) in
      PipelineGenerics.last_chance_service new
        = PipelineGenerics.last_chance_service old
      /\ PipelineGenerics.timeout_service new
        = PipelineGenerics.timeout_service old
      /\ PipelineGenerics.bot_annotator_selector new
        = PipelineGenerics.bot_annotator_selector old
      /\ DreamPipeline._filter_connectors_by_name
           (PipelineGenerics.connectors self) names excluded
         = Ok (PipelineGenerics.connectors (value r))
      /\ Forall2
           (fun d d' =>
              DreamPipeline._filter_services_by_name d names excluded = Ok d')
           (categories old) (categories new)
      /\ self_after r = (if inplace then value r else self)
  | Raise e => e = ValueError /\ has_bad_url self
  end.
Proof.
  intros names excluded. unfold DreamPipeline.filter_services.
  fold names excluded.
  destruct (DreamPipeline._filter_connectors_by_name _ names excluded)
    as [cs|e] eqn:Hc; simpl.
  2:{ apply filter_connectors_by_name_Raise in Hc as (-> & k & v & Hin & Hbad).
      split; [done|]. left. eauto. }
  destruct (DreamPipeline._filter_services_by_name
              (PipelineGenerics.post_annotators _) names excluded)
    as [d1|e] eqn:H1; simpl; [|bad_category H1].
  destruct (DreamPipeline._filter_services_by_name
              (PipelineGenerics.annotators _) names excluded)
    as [d2|e] eqn:H2; simpl; [|bad_category H2].
  destruct (DreamPipeline._filter_services_by_name
              (PipelineGenerics.skill_selectors _) names excluded)
    as [d3|e] eqn:H3; simpl; [|bad_category H3].
  destruct (DreamPipeline._filter_services_by_name
              (PipelineGenerics.skills _) names excluded)
    as [d4|e] eqn:H4; simpl; [|bad_category H4].
  destruct (DreamPipeline._filter_services_by_name
              (PipelineGenerics.post_skill_selector_annotators _) names excluded)
    as [d5|e] eqn:H5; simpl; [|bad_category H5].
  destruct (DreamPipeline._filter_services_by_name
              (PipelineGenerics.response_selectors _) names excluded)
    as [d6|e] eqn:H6; simpl; [|bad_category H6].
  destruct inplace; simpl; repeat split; try done;
    unfold categories; simpl; repeat constructor; done.
Qed.

Lemma dict_get_filter_keys_values {V} (keep : string -> V -> bool) k d :
  NoDup (Dict.keys d) ->
  Dict.get k (Dict.filter_keys_values keep d) =
    match Dict.get k d with
    | Some v => if keep k v then Some v else None
    | None => None
    end.
Proof.
  unfold Dict.filter_keys_values, Dict.keys.
  induction d as [|[k0 v0] d IH]; simpl; [done|].
  intros [Hk0 Hnd]%NoDup_cons. specialize (IH Hnd).
  destruct (decide (k0 = k)) as [->|Hne].
  - destruct (keep k v0); simpl; [by destruct (decide (k = k))|].
    rewrite IH. apply dict_get_None in Hk0. by rewrite Hk0.
  - destruct (keep k0 v0); simpl; [by destruct (decide (k0 = k))|done].
Qed.

(** C4, as stated, fails: a skill whose connector object has no URL is
    dropped although its dashed name is included and not excluded. *)
Lemma filter_services_by_name_counterexample :
  ~ name_rule Samples.skills_dict ["dummy-skill"] [].
Proof.
  intros Hrule.
  destruct (Hrule [] "dummy_skill" Samples.dummy_skill) as [_ Hkept];
    [by vm_compute..|].
  discriminate Hkept. split; [apply list_elem_of_here|apply not_elem_of_nil].
Qed.

(** C4, amended: a service whose connector is given by name is kept when
    its dashed name is included and not excluded, and dropped when its
    dashed name is not included; a service whose connector object has no
    URL, or an empty one, is always dropped. The filter returns unless a
    URL of the dictionary does not parse. *)
Theorem filter_services_by_name_without_url
    (d : Dict.t PipelineGenerics.PipelineConfService)
    (names exclude_names : list string) :
  NoDup (Dict.keys d) ->
  match DreamPipeline._filter_services_by_name d names exclude_names with
  | Ok r =>
      forall k v, Dict.get k d = Some v ->
        match PipelineGenerics.connector v with
        | PipelineGenerics.ConnectorName _ =>
            (DreamPipeline.dashed k ∈ names ->
             DreamPipeline.dashed k ∉ exclude_names ->
             Dict.get k r = Some v)
            /\ (DreamPipeline.dashed k ∉ names -> Dict.get k r = None)
        | PipelineGenerics.ConnectorObject c =>
            opt_truthy (PipelineGenerics.url c) = false -> Dict.get k r = None
        end
  | Raise e =>
      e = ValueError /\ exists k v, (k, v) ∈ d /\ bad_url (service_url v)
  end.
Proof.
  intros Hnd.
  destruct (DreamPipeline._filter_services_by_name d names exclude_names)
    as [r|e] eqn:Hr; [|by apply filter_services_by_name_Raise in Hr].
  apply filter_services_by_name_Ok in Hr as ->; [|done].
  intros k v Hget. rewrite dict_get_filter_keys_values, Hget by done.
  unfold service_kept. destruct (PipelineGenerics.connector v) as [ref|c].
  - split.
    + intros Hin _. by rewrite bool_decide_eq_true_2.
    + intros Hnin. by rewrite bool_decide_eq_false_2.
  - by intros ->.
Qed.

(** The same on the sample skills. *)
Lemma filter_services_by_name_without_url_witness :
  match DreamPipeline._filter_services_by_name Samples.skills_dict
          ["sentseg-local"; "dff-program-y-skill"] []
  with
  | Ok r =>
      forall k v, Dict.get k Samples.skills_dict = Some v ->
        match PipelineGenerics.connector v with
        | PipelineGenerics.ConnectorName _ =>
            (DreamPipeline.dashed k ∈ ["sentseg-local"; "dff-program-y-skill"] ->
             DreamPipeline.dashed k ∉ [] ->
             Dict.get k r = Some v)
            /\ (DreamPipeline.dashed k ∉ ["sentseg-local"; "dff-program-y-skill"] ->
                Dict.get k r = None)
        | PipelineGenerics.ConnectorObject c =>
            opt_truthy (PipelineGenerics.url c) = false -> Dict.get k r = None
        end
  | Raise e =>
      e = ValueError
      /\ exists k v, (k, v) ∈ Samples.skills_dict /\ bad_url (service_url v)
  end.
Proof.
  apply (filter_services_by_name_without_url Samples.skills_dict
           ["sentseg-local"; "dff-program-y-skill"] []).
  apply (bool_decide_unpack _). vm_compute. exact I.
Defined.

(** ** [create_local_yml] *)

Section LocalConfigFacts.

Import Generics.

Lemma dict_get_merge {V} k (a b : Dict.t V) :
  NoDup (Dict.keys b) ->
  Dict.get k (Dict.merge a b) =
    match Dict.get k b with Some v => Some v | None => Dict.get k a end.
Proof.
  unfold Dict.merge, Dict.keys. revert a.
  induction b as [|[k0 v0] b IH]; intros a; simpl; [done|].
  intros [Hk0 Hnd]%NoDup_cons. rewrite IH, dict_get_set by done.
  destruct (decide (k0 = k)) as [->|Hne]; [|done].
  apply dict_get_None in Hk0. by rewrite Hk0.
Qed.

Lemma dict_keys_set_NoDup {V} k (v : V) d :
  NoDup (Dict.keys d) -> NoDup (Dict.keys (Dict.set k v d)).
Proof.
  intros Hnd. rewrite dict_keys_set. case_decide; [done|].
  apply NoDup_app. split; [done|]. split; [|apply NoDup_singleton].
  intros x Hx ->%list_elem_of_singleton. done.
Qed.

Lemma dict_keys_merge_NoDup {V} (a b : Dict.t V) :
  NoDup (Dict.keys a) -> NoDup (Dict.keys (Dict.merge a b)).
Proof.
  unfold Dict.merge. revert a.
  induction b as [|[k0 v0] b IH]; intros a Hnd; simpl; [done|].
  by apply IH, dict_keys_set_NoDup.
Qed.

Lemma dict_keys_filter_keys_NoDup {V} keep (d : Dict.t V) :
  NoDup (Dict.keys d) -> NoDup (Dict.keys (Dict.filter_keys keep d)).
Proof.
  unfold Dict.keys, Dict.filter_keys.
  induction d as [|[k0 v0] d IH]; simpl; [done|].
  intros [Hk0 Hnd]%NoDup_cons. destruct (keep k0); simpl; [|by apply IH].
  apply NoDup_cons. split; [|by apply IH].
  intros Hin. apply Hk0. apply list_elem_of_In in Hin.
  apply list_elem_of_In. apply in_map_iff in Hin as ([k v] & <- & Hin).
  apply filter_In in Hin as [Hin _]. by apply (in_map fst d (k, v)).
Qed.

Lemma dict_map_values_idemp {V} (f : V -> V) (d : Dict.t V) :
  (forall v, f (f v) = f v) ->
  Dict.map_values f (Dict.map_values f d) = Dict.map_values f d.
Proof.
  intros Hf. unfold Dict.map_values.
  induction d as [|[k0 v0] d IH]; simpl; [done|]. by rewrite Hf, IH.
Qed.

Lemma container_parse_obj_idemp cls s :
  container_parse_obj cls (container_parse_obj cls s) = container_parse_obj cls s.
Proof. done. Qed.

Lemma add_in_place_validated g cfg entry : validated (add_in_place g cfg entry).
Proof.
  destruct entry as [name s]. unfold validated, add_in_place. simpl.
  apply dict_map_values_idemp, container_parse_obj_idemp.
Qed.

Lemma add_in_place_get g cfg name s k :
  validated cfg ->
  Dict.get k (services (add_in_place g cfg (name, s))) =
    if decide (name = k)
    then Some (container_parse_obj ComposeLocalContainer (g name s))
    else Dict.get k (services cfg).
Proof.
  intros Hv. unfold add_in_place. simpl.
  rewrite dict_get_map_values, dict_get_set.
  destruct (decide (name = k)); [done|].
  by rewrite <- dict_get_map_values, Hv.
Qed.

Lemma add_in_place_NoDup g cfg entry :
  NoDup (Dict.keys (services cfg)) ->
  NoDup (Dict.keys (services (add_in_place g cfg entry))).
Proof.
  destruct entry as [name s]. unfold add_in_place. simpl.
  rewrite dict_keys_map_values. apply dict_keys_set_NoDup.
Qed.

(** The loop of [create_local_yml]: every entry of the combined mapping
    lands in the local config, the others stay. *)
Lemma local_loop_get g items cfg k :
  NoDup (Dict.keys items) -> validated cfg ->
  Dict.get k (services (foldl (add_in_place g) cfg items)) =
    match Dict.get k items with
    | Some s => Some (container_parse_obj ComposeLocalContainer (g k s))
    | None => Dict.get k (services cfg)
    end.
Proof.
  unfold Dict.keys. revert cfg.
  induction items as [|[k0 s0] items IH]; intros cfg;
    cbn [foldl Dict.get List.map fst]; [done|].
  intros [Hk0 Hnd]%NoDup_cons Hv.
  rewrite IH by auto using add_in_place_validated.
  rewrite add_in_place_get by done.
  destruct (decide (k0 = k)) as [->|Hne]; [|done].
  apply dict_get_None in Hk0. by rewrite Hk0.
Qed.

Lemma local_loop_NoDup g items cfg :
  NoDup (Dict.keys (services cfg)) ->
  NoDup (Dict.keys (services (foldl (add_in_place g) cfg items))).
Proof.
  revert cfg. induction items as [|entry items IH]; intros cfg Hnd;
    cbn [foldl]; [done|]. by apply IH, add_in_place_NoDup.
Qed.

Lemma py_or_extended selected (d : list string) :
  py_or (Some (extended selected)) d = extended selected.
Proof. unfold extended. by destruct selected. Qed.

Lemma build_local_config_unfold self selected drop_ports single_replica
    dev proxy :
  DreamDist.compose_dev self = Some dev ->
  DreamDist.compose_proxy self = Some proxy ->
  DreamDist.build_local_config self selected drop_ports single_replica =
    let dev_config_part :=
      value (YmlDreamConfig.filter_services dev (Some (extended selected))
               None false) in
    let proxy_config_part :=
      value (YmlDreamConfig.filter_services proxy None
               (Some (extended selected)) false) in
    Ok (foldl
          (add_in_place
             (DreamDist.local_service (extended selected) drop_ports
                single_replica))
          (compose_validate Local DEFAULT_VERSION (services proxy_config_part))
          (DreamDist.all_config_parts dev_config_part proxy_config_part)).
Proof.
  intros Hdev Hproxy. unfold DreamDist.build_local_config.
  rewrite Hdev, Hproxy. reflexivity.
Qed.

Lemma services_compose_validate k v d :
  services (compose_validate k v d) =
    Dict.map_values (container_parse_obj (container_class_of k)) d.
Proof. reflexivity. Qed.

Lemma local_service_derived ext drop_ports single_replica name cls s :
  container_parse_obj ComposeLocalContainer
    (DreamDist.local_service ext drop_ports single_replica name
       (container_parse_obj cls s))
  = derived_container (bool_decide (name ∈ ext)) drop_ports single_replica s.
Proof.
  unfold DreamDist.local_service, derived_container.
  by destruct (bool_decide (name ∈ ext)), drop_ports, single_replica.
Qed.

(** What [create_local_yml] builds, entry by entry: a name of the extended
    list comes from the dev document, any other name from the proxy
    document. *)
Lemma build_local_config_spec self selected drop_ports single_replica
    dev proxy :
  DreamDist.compose_dev self = Some dev ->
  DreamDist.compose_proxy self = Some proxy ->
  NoDup (Dict.keys (services dev)) ->
  NoDup (Dict.keys (services proxy)) ->
  exists cfg,
    DreamDist.build_local_config self selected drop_ports single_replica
      = Ok cfg
    /\ NoDup (Dict.keys (services cfg))
    /\ forall name,
         Dict.get name (services cfg) =
           if bool_decide (name ∈ extended selected)
           then derived_container true drop_ports single_replica
                  <$> Dict.get name (services dev)
           else derived_container false drop_ports single_replica
                  <$> Dict.get name (services proxy).
Proof.
  intros Hdev Hproxy Hnd_dev Hnd_proxy.
  eexists. split; [by apply build_local_config_unfold|].
  cbv zeta. unfold YmlDreamConfig.filter_services, DreamDist.all_config_parts.
  rewrite !py_or_extended. cbn [py_or value].
  split.
  - apply local_loop_NoDup. rewrite !services_compose_validate.
    rewrite !dict_keys_map_values. by apply dict_keys_filter_keys_NoDup.
  - intros name. rewrite local_loop_get.
    + rewrite !services_compose_validate.
      rewrite dict_get_merge
        by (rewrite dict_keys_map_values;
            by apply dict_keys_filter_keys_NoDup).
      rewrite !dict_get_map_values, !dict_get_filter_keys.
      rewrite (bool_decide_eq_false_2 (name ∈ [])) by apply not_elem_of_nil.
      destruct (bool_decide (name ∈ extended selected)) eqn:Hext; simpl.
      * rewrite andb_false_r. simpl.
        destruct (Dict.get name (services dev)) as [s|]; simpl; [|done].
        by rewrite local_service_derived, Hext.
      * rewrite andb_true_r.
        destruct (Dict.get name (services proxy)) as [s|] eqn:Hget; simpl.
        -- rewrite bool_decide_eq_true_2; simpl.
           ++ by rewrite local_service_derived, Hext.
           ++ apply dec_stable. intros Hnin.
              apply dict_get_None in Hnin. congruence.
        -- by destruct (bool_decide (name ∈ Dict.keys (services proxy))).
    + rewrite !services_compose_validate.
      apply dict_keys_merge_NoDup. rewrite dict_keys_map_values.
      by apply dict_keys_filter_keys_NoDup.
    + unfold validated. rewrite !services_compose_validate.
      apply dict_map_values_idemp, container_parse_obj_idemp.
Qed.

End LocalConfigFacts.

Lemma dict_elem_keys_is_Some {V} k (d : Dict.t V) :
  k ∈ Dict.keys d <-> is_Some (Dict.get k d).
Proof.
  rewrite <- not_eq_None_Some, dict_get_None.
  split; [by intros ? ?|apply dec_stable].
Qed.

Lemma local_yml_path (p : Path) :
  p </> "local.yml"
  = {| Pathlib.anchored := Pathlib.anchored p;
       Pathlib.parts := (Pathlib.parts p ++ ["local.yml"])%list |}.
Proof. reflexivity. Qed.

Lemma locate_local_yml fs (p : Path) :
  locate fs (p </> "local.yml") = (locate fs p ++ ["local.yml"])%list.
Proof.
  rewrite local_yml_path. unfold locate. simpl.
  destruct (Pathlib.anchored p); [done|by rewrite app_assoc].
Qed.

(** The last step of [create_local_yml]: in a distribution directory the
    local config is written to [local.yml], over a file that may be
    there. *)
Lemma create_local_yml_writes self selected drop_ports single_replica cfg fs :
  DreamDist.build_local_config self selected drop_ports single_replica
    = Ok cfg ->
  is_dir fs (DreamDist.dist_path self) = true ->
  is_dir fs (DreamDist.dist_path self </> "local.yml") = false ->
  DreamDist.create_local_yml self selected drop_ports single_replica fs
  = Ok (DreamDist.dist_path self </> "local.yml",
        store fs (locate fs (DreamDist.dist_path self </> "local.yml"))
          (jsonable cfg)).
Proof.
  intros Hb Hdir Hfile. unfold DreamDist.create_local_yml. rewrite Hb.
  cbn [mbind result_bind]. unfold to_dist. rewrite dump_unfold.
  change (DEFAULT_FILE_NAME (C := Generics.Compose Generics.Local))
    with "local.yml".
  unfold write_file, check_parent. rewrite locate_local_yml, removelast_last.
  unfold is_dir in *. rewrite locate_local_yml in Hfile.
  destruct (node_at fs (locate fs (DreamDist.dist_path self))) as [[]|];
    [|done..].
  cbn [mbind result_bind].
  by destruct (node_at fs _) as [[]|].
Qed.

(** C3, as stated, fails: with the list ["a"], the entry ["agent"] of the
    combined mapping is read as a local container and loses its ports,
    although ["agent"] is not in the list that was passed. *)
Lemma create_local_yml_original_list_counterexample :
  ~ original_list_rule Samples.scenario_dist ["a"].
Proof.
  intros Hrule.
  destruct (Hrule Samples.scenario_dev Samples.scenario_proxy "agent"
              (Samples.container Generics.ComposeDevContainer "agent-dev"
                 "4242:4242")) as [_ Hkeep]; [by vm_compute..|].
  destruct Hkeep as [Hclass _].
  - by intros [=]%list_elem_of_singleton.
  - vm_compute in Hclass. discriminate.
Qed.

(** C3, amended: the loop of [create_local_yml] tests names against the
    extended list, the list passed plus ["agent"] and ["mongo"]. An entry
    whose name is in the extended list is read as a local container and,
    with [drop_ports], has its ports cleared; any other entry keeps its
    class and its ports. In the local config a name of the extended list
    holds the dev container so treated, any other name the proxy
    container with its ports. *)
Theorem create_local_yml_extended_list
    (self : DreamDist.t) (selected : list string)
    (drop_ports single_replica : bool)
    (dev : Generics.Compose Generics.Dev)
    (proxy : Generics.Compose Generics.Proxy) :
  DreamDist.compose_dev self = Some dev ->
  DreamDist.compose_proxy self = Some proxy ->
  NoDup (Dict.keys (Generics.services dev)) ->
  NoDup (Dict.keys (Generics.services proxy)) ->
  ("agent" ∈ extended selected /\ "mongo" ∈ extended selected
   /\ forall name, name ∈ selected -> name ∈ extended selected)
  /\ (forall name s,
        let service :=
          DreamDist.local_service (extended selected) drop_ports
            single_replica name s in
        (name ∈ extended selected ->
         Generics.class_of service = Generics.ComposeLocalContainer
         /\ Generics.ports service
            = if drop_ports then None else Generics.ports s)
        /\ (name ∉ extended selected ->
            Generics.class_of service = Generics.class_of s
            /\ Generics.ports service = Generics.ports s))
  /\ exists cfg,
       DreamDist.build_local_config self selected drop_ports single_replica
         = Ok cfg
       /\ forall name,
            Dict.get name (Generics.services cfg) =
              if bool_decide (name ∈ extended selected)
              then derived_container true drop_ports single_replica
                     <$> Dict.get name (Generics.services dev)
              else derived_container false drop_ports single_replica
                     <$> Dict.get name (Generics.services proxy).
Proof.
  intros Hdev Hproxy Hnd_dev Hnd_proxy. split; [|split].
  - unfold extended. rewrite !elem_of_app. repeat split.
    + right. apply list_elem_of_here.
    + right. apply list_elem_of_further, list_elem_of_here.
    + intros name Hin. rewrite elem_of_app. by left.
  - intros name s service. subst service. unfold DreamDist.local_service.
    split; intros Hin.
    + rewrite bool_decide_eq_true_2 by done.
      by destruct drop_ports, single_replica.
    + rewrite bool_decide_eq_false_2 by done. by destruct single_replica.
  - destruct (build_local_config_spec self selected drop_ports single_replica
                dev proxy) as (cfg & Hb & _ & Hget); try done.
    by exists cfg.
Qed.

(** The same on the sample distribution, for the list ["a"]. *)
Lemma create_local_yml_extended_list_witness :
  ("agent" ∈ extended ["a"] /\ "mongo" ∈ extended ["a"]
   /\ forall name, name ∈ ["a"] -> name ∈ extended ["a"])
  /\ (forall name s,
        let service :=
          DreamDist.local_service (extended ["a"]) true true name s in
        (name ∈ extended ["a"] ->
         Generics.class_of service = Generics.ComposeLocalContainer
         /\ Generics.ports service = None)
        /\ (name ∉ extended ["a"] ->
            Generics.class_of service = Generics.class_of s
            /\ Generics.ports service = Generics.ports s))
  /\ exists cfg,
       DreamDist.build_local_config Samples.scenario_dist ["a"] true true
         = Ok cfg
       /\ forall name,
            Dict.get name (Generics.services cfg) =
              if bool_decide (name ∈ extended ["a"])
              then derived_container true true true
                     <$> Dict.get name (Generics.services Samples.scenario_dev)
              else derived_container false true true
                     <$> Dict.get name
                           (Generics.services Samples.scenario_proxy).
Proof.
  apply (create_local_yml_extended_list Samples.scenario_dist ["a"] true true
           Samples.scenario_dev Samples.scenario_proxy).
  - reflexivity.
  - reflexivity.
  - apply (bool_decide_unpack _). vm_compute. exact I.
  - apply (bool_decide_unpack _). vm_compute. exact I.
Defined.

(** C2: the local-yml scenario. With dev services a, agent, mongo and
    proxy services a, b, agent, mongo, [create_local_yml(["a"])] with
    both flags set builds a local document with exactly the services a,
    b, agent, mongo: a, agent and mongo are the dev containers with the
    ports cleared, b is the proxy container with its ports, and every
    entry is deployed replicated with one replica. In a distribution
    directory the document is written to [local.yml]. *)
Theorem create_local_yml_scenario
    (self : DreamDist.t)
    (dev : Generics.Compose Generics.Dev)
    (proxy : Generics.Compose Generics.Proxy)
    (da dagent dmongo pb : Generics.AnyContainer) :
  DreamDist.compose_dev self = Some dev ->
  DreamDist.compose_proxy self = Some proxy ->
  NoDup (Dict.keys (Generics.services dev)) ->
  NoDup (Dict.keys (Generics.services proxy)) ->
  (forall k, k ∈ Dict.keys (Generics.services dev)
             <-> k ∈ ["a"; "agent"; "mongo"]) ->
  (forall k, k ∈ Dict.keys (Generics.services proxy)
             <-> k ∈ ["a"; "b"; "agent"; "mongo"]) ->
  Dict.get "a" (Generics.services dev) = Some da ->
  Dict.get "agent" (Generics.services dev) = Some dagent ->
  Dict.get "mongo" (Generics.services dev) = Some dmongo ->
  Dict.get "b" (Generics.services proxy) = Some pb ->
  let single := Some (Generics.new_deployment "replicated" 1) in
  let from_dev (s : Generics.AnyContainer) :=
    {| Generics.class_of := Generics.ComposeLocalContainer;
       Generics.ports := None;
       Generics.deploy := single;
       Generics.fields := Generics.fields s |} in
  let from_proxy (s : Generics.AnyContainer) :=
    {| Generics.class_of := Generics.ComposeLocalContainer;
       Generics.ports := Generics.ports s;
       Generics.deploy := single;
       Generics.fields := Generics.fields s |} in
  exists cfg,
    DreamDist.build_local_config self ["a"] true true = Ok cfg
    /\ NoDup (Dict.keys (Generics.services cfg))
    /\ (forall k, k ∈ Dict.keys (Generics.services cfg)
                  <-> k ∈ ["a"; "b"; "agent"; "mongo"])
    /\ Dict.get "a" (Generics.services cfg) = Some (from_dev da)
    /\ Dict.get "agent" (Generics.services cfg) = Some (from_dev dagent)
    /\ Dict.get "mongo" (Generics.services cfg) = Some (from_dev dmongo)
    /\ Dict.get "b" (Generics.services cfg) = Some (from_proxy pb)
    /\ (forall k c, Dict.get k (Generics.services cfg) = Some c ->
                    Generics.deploy c = single)
    /\ forall fs,
         is_dir fs (DreamDist.dist_path self) = true ->
         is_dir fs (DreamDist.dist_path self </> "local.yml") = false ->
         DreamDist.create_local_yml self ["a"] true true fs
         = Ok (DreamDist.dist_path self </> "local.yml",
               store fs (locate fs (DreamDist.dist_path self </> "local.yml"))
                 (jsonable cfg)).
Proof.
  intros Hdev Hproxy Hnd_dev Hnd_proxy Hkeys_dev Hkeys_proxy Ha Hagent Hmongo
    Hb single from_dev from_proxy.
  destruct (build_local_config_spec self ["a"] true true dev proxy)
    as (cfg & Hbuild & Hnd & Hget); try done.
  exists cfg. split; [done|]. split; [done|].
  split; [|split; [|split; [|split; [|split; [|split]]]]].
  - intros k. rewrite dict_elem_keys_is_Some, Hget.
    case_bool_decide as Hext; rewrite fmap_is_Some, <- dict_elem_keys_is_Some.
    + rewrite Hkeys_dev. unfold extended in Hext. simpl in Hext.
      rewrite !elem_of_cons in *. tauto.
    + rewrite Hkeys_proxy. unfold extended in Hext. simpl in Hext.
      rewrite !elem_of_cons in *. tauto.
  - by rewrite Hget, Ha.
  - by rewrite Hget, Hagent.
  - by rewrite Hget, Hmongo.
  - by rewrite Hget, Hb.
  - intros k c. rewrite Hget.
    case_bool_decide; intros (s & _ & ->)%fmap_Some; done.
  - intros fs. by apply create_local_yml_writes.
Qed.

(** The scenario on the sample distribution. *)
Lemma create_local_yml_scenario_witness :
  let single := Some (Generics.new_deployment "replicated" 1) in
  let from_dev (s : Generics.AnyContainer) :=
    {| Generics.class_of := Generics.ComposeLocalContainer;
       Generics.ports := None;
       Generics.deploy := single;
       Generics.fields := Generics.fields s |} in
  let from_proxy (s : Generics.AnyContainer) :=
    {| Generics.class_of := Generics.ComposeLocalContainer;
       Generics.ports := Generics.ports s;
       Generics.deploy := single;
       Generics.fields := Generics.fields s |} in
  exists cfg,
    DreamDist.build_local_config Samples.scenario_dist ["a"] true true = Ok cfg
    /\ NoDup (Dict.keys (Generics.services cfg))
    /\ (forall k, k ∈ Dict.keys (Generics.services cfg)
                  <-> k ∈ ["a"; "b"; "agent"; "mongo"])
    /\ Dict.get "a" (Generics.services cfg)
       = Some (from_dev (Samples.container Generics.ComposeDevContainer
                           "a-dev" "8001:8001"))
    /\ Dict.get "agent" (Generics.services cfg)
       = Some (from_dev (Samples.container Generics.ComposeDevContainer
                           "agent-dev" "4242:4242"))
    /\ Dict.get "mongo" (Generics.services cfg)
       = Some (from_dev (Samples.container Generics.ComposeDevContainer
                           "mongo-dev" "27017:27017"))
    /\ Dict.get "b" (Generics.services cfg)
       = Some (from_proxy (Samples.container Generics.ComposeContainer
                             "proxy" "8002"))
    /\ (forall k c, Dict.get k (Generics.services cfg) = Some c ->
                    Generics.deploy c = single)
    /\ forall fs,
         is_dir fs (DreamDist.dist_path Samples.scenario_dist) = true ->
         is_dir fs (DreamDist.dist_path Samples.scenario_dist </> "local.yml")
           = false ->
         DreamDist.create_local_yml Samples.scenario_dist ["a"] true true fs
         = Ok (DreamDist.dist_path Samples.scenario_dist </> "local.yml",
               store fs
                 (locate fs
                    (DreamDist.dist_path Samples.scenario_dist </> "local.yml"))
                 (jsonable cfg)).
Proof.
  apply (create_local_yml_scenario Samples.scenario_dist
           Samples.scenario_dev Samples.scenario_proxy).
  - reflexivity.
  - reflexivity.
  - apply (bool_decide_unpack _). vm_compute. exact I.
  - apply (bool_decide_unpack _). vm_compute. exact I.
  - intros k. reflexivity.
  - intros k. reflexivity.
  - reflexivity.
  - reflexivity.
  - reflexivity.
  - reflexivity.
Defined.

(** The scenario evaluated: the services of the local document, in the
    order in which the code leaves them. *)
Example create_local_yml_scenario_run :
  Dict.keys <$> (Generics.services
                   <$> DreamDist.build_local_config Samples.scenario_dist
                         ["a"] true true)
  = Ok ["b"; "a"; "agent"; "mongo"]
  /\ is_ok (DreamDist.create_local_yml Samples.scenario_dist ["a"] true true
              Samples.disk) = true.
Proof. split; by vm_compute. Qed.

(** A service whose connector is given by name is kept as soon as its
    dashed name is included: the exclude list is not looked at on this
    path, while it is for a service with a URL. *)
Example filter_services_by_name_keeps_excluded_name :
  DreamPipeline._filter_services_by_name Samples.skills_dict
    ["sentseg-local"; "dff-program-y-skill"]
    ["sentseg-local"; "dff-program-y-skill"]
  = Ok [("sentseg_local", Samples.named_service)].
Proof. by vm_compute. Qed.

(** * Further properties *)

(** ** Splitting, piece by piece *)

Section ScanFacts.

Import PyStr.

Lemma append_nil_l s : "" +:+ s = s.
Proof. reflexivity. Qed.

Lemma append_assoc s t u : (s +:+ t) +:+ u = s +:+ (t +:+ u).
Proof.
  induction s as [|a s IH]; [done|]. by rewrite !append_cons, IH.
Qed.

Lemma count_char_append c s t :
  count_char c (s +:+ t) = count_char c s + count_char c t.
Proof.
  induction s as [|a s IH]; [done|].
  rewrite append_cons. simpl. rewrite IH. lia.
Qed.

Lemma count_char_cons_0 c a s :
  count_char c (String a s) = 0 -> Ascii.eqb a c = false /\ count_char c s = 0.
Proof. simpl. destruct (Ascii.eqb a c); [lia|done]. Qed.

Lemma truthy_append_r s t : truthy t = true -> truthy (s +:+ t) = true.
Proof. by destruct s. Qed.

(** Characters other than the first of the separator are passed over. *)
Lemma split_scan_skip c sep' maxsplit cur s t :
  count_char c s = 0 ->
  split_scan (String c sep') maxsplit 0 cur (s +:+ t)
  = split_scan (String c sep') maxsplit 0 (cur +:+ s) t.
Proof.
  revert cur. induction s as [|a s IH]; intros cur Hs.
  - by rewrite append_nil_l, append_nil_r.
  - apply count_char_cons_0 in Hs as [Ha Hs].
    rewrite append_cons. cbn [split_scan startswith].
    rewrite Ascii.eqb_sym, Ha, andb_false_r.
    rewrite IH by done. by rewrite append_assoc_char.
Qed.

(** A string in which the separator does not occur is one piece. *)
Lemma split_scan_no_occurrence sep maxsplit cur t :
  str_contains sep t = false ->
  split_scan sep maxsplit 0 cur t = [cur +:+ t].
Proof.
  revert cur. induction t as [|a t IH]; intros cur Ht.
  - by rewrite append_nil_r.
  - cbn [str_contains] in Ht. apply orb_false_elim in Ht as [Hst Ht].
    cbn [split_scan]. rewrite Hst, andb_false_r.
    rewrite IH by done. by rewrite append_assoc_char.
Qed.

(** With no split left the rest is one piece. *)
Lemma split_scan_maxsplit_0 sep cur t :
  split_scan sep (Some 0) 0 cur t = [cur +:+ t].
Proof.
  revert cur. induction t as [|a t IH]; intros cur.
  - by rewrite append_nil_r.
  - cbn [split_scan may_split andb]. rewrite IH. by rewrite append_assoc_char.
Qed.

(** The pieces cut at a character do not contain it. *)
Lemma split_char_pieces c cur s :
  count_char c cur = 0 ->
  Forall (fun x => count_char c x = 0)
    (split_scan (String c "") None 0 cur s).
Proof.
  revert cur. induction s as [|a s IH]; intros cur Hcur.
  - by constructor.
  - cbn [split_scan may_split startswith andb].
    destruct (Ascii.eqb c a) eqn:Ha; cbn [andb].
    + constructor; [done|]. by apply IH.
    + apply IH. rewrite count_char_append, Hcur. simpl.
      rewrite Ascii.eqb_sym, Ha. done.
Qed.

(** The first piece of a split at the first occurrence of a character
    does not contain it. *)
Lemma split_char_once_head c cur s x :
  count_char c cur = 0 ->
  head (split_scan (String c "") (Some 1) 0 cur s) = Some x ->
  count_char c x = 0.
Proof.
  revert cur. induction s as [|a s IH]; intros cur Hcur.
  - by intros [= <-].
  - cbn [split_scan may_split startswith andb].
    destruct (Ascii.eqb c a) eqn:Ha; cbn [andb].
    + by intros [= <-].
    + apply IH. rewrite count_char_append, Hcur. simpl.
      rewrite Ascii.eqb_sym, Ha. done.
Qed.

End ScanFacts.

(** ** The connector URL parser, both ways *)

Section UrlFacts.

Import PyStr.

(** Appends brought to one shape: nested to the right, literals as
    leading characters. *)
Ltac norm_append :=
  repeat first
    [rewrite append_assoc | rewrite append_cons | rewrite append_nil_l].

(** One step of the scan over a character that is not a slash or a
    colon match. *)
Ltac scan_step :=
  cbn [split_scan may_split after_split pred startswith andb Ascii.eqb
       Bool.eqb String.length Nat.sub].

(** A string without the character is one piece. *)
Lemma split_char_none c sep' maxsplit cur s :
  count_char c s = 0 ->
  split_scan (String c sep') maxsplit 0 cur s = [cur +:+ s].
Proof.
  intros Hs. rewrite <- (append_nil_r s) at 1.
  by rewrite split_scan_skip.
Qed.

(** The segments of a URL put together from its parts. *)
Lemma url_segments scheme host port endpoint :
  count_char "/" scheme = 0 ->
  count_char "/" host = 0 ->
  count_char "/" port = 0 ->
  str_contains "//" endpoint = false ->
  startswith "/" endpoint = false ->
  let u := scheme +:+ "://" +:+ host +:+ ":" +:+ port +:+ "/" +:+ endpoint in
  host_segment u = host +:+ ":" +:+ port /\ endpoint_segment u = endpoint.
Proof.
  intros Hscheme Hhost Hport Hend Hstart u.
  assert (str_contains "//" (String "/" endpoint) = false) as Hend'.
  { change (str_contains "//" (String "/" endpoint))
      with (startswith "/" endpoint || str_contains "//" endpoint).
    by rewrite Hstart, Hend. }
  assert (split_scan "//" None 0 "" u
          = [scheme +:+ ":"; host +:+ ":" +:+ port +:+ "/" +:+ endpoint])
    as Hpieces.
  { subst u. norm_append. rewrite split_scan_skip by done. scan_step.
    rewrite split_scan_skip by done. scan_step.
    rewrite split_scan_skip by done.
    rewrite split_scan_no_occurrence by done. by norm_append. }
  unfold host_segment, endpoint_segment. fold u. rewrite Hpieces.
  cbn [last default]. unfold id. norm_append.
  rewrite split_scan_skip by done. scan_step.
  rewrite split_scan_skip by done. scan_step.
  rewrite split_scan_maxsplit_0. by norm_append.
Qed.

(** The same for a URL that ends after the port. *)
Lemma url_segments_no_endpoint scheme host port :
  count_char "/" scheme = 0 ->
  count_char "/" host = 0 ->
  count_char "/" port = 0 ->
  let u := scheme +:+ "://" +:+ host +:+ ":" +:+ port in
  host_segment u = host +:+ ":" +:+ port /\ endpoint_segment u = "".
Proof.
  intros Hscheme Hhost Hport u.
  assert (split_scan "//" None 0 "" u = [scheme +:+ ":"; host +:+ ":" +:+ port])
    as Hpieces.
  { subst u. norm_append. rewrite split_scan_skip by done. scan_step.
    rewrite split_scan_skip by done. scan_step.
    rewrite split_char_none by done. by norm_append. }
  unfold host_segment, endpoint_segment. fold u. rewrite Hpieces.
  cbn [last default]. unfold id. norm_append.
  rewrite split_scan_skip by done. scan_step.
  rewrite split_char_none by done. by norm_append.
Qed.

Lemma split_host_port host port :
  count_char ":" host = 0 ->
  count_char ":" port = 0 ->
  split_scan ":" None 0 "" (host +:+ ":" +:+ port) = [host; port].
Proof.
  intros Hhost Hport. norm_append. rewrite split_scan_skip by done. scan_step.
  rewrite split_char_none by done. by norm_append.
Qed.

(** X1: a URL put together as scheme://host:port/endpoint parses back to
    its parts, when scheme, host and port are free of slashes, host and
    port are free of colons, and the endpoint neither starts with a slash
    nor contains a double slash. *)
Theorem parse_connector_url_roundtrip (scheme host port endpoint : string) :
  count_char "/" scheme = 0 ->
  count_char "/" host = 0 -> count_char ":" host = 0 ->
  count_char "/" port = 0 -> count_char ":" port = 0 ->
  str_contains "//" endpoint = false ->
  startswith "/" endpoint = false ->
  _parse_connector_url
    (Some (scheme +:+ "://" +:+ host +:+ ":" +:+ port +:+ "/" +:+ endpoint))
  = Ok (Some host, Some port, Some endpoint).
Proof.
  intros Hscheme Hhost Hhost' Hport Hport' Hend Hstart.
  rewrite parse_connector_url_truthy by (by apply truthy_append_r).
  destruct (url_segments scheme host port endpoint) as [-> ->]; try done.
  by rewrite split_host_port.
Qed.

(** The round trip on the first reference URL. *)
Lemma parse_connector_url_roundtrip_witness :
  _parse_connector_url
    (Some ("http" +:+ "://" +:+ "annotator" +:+ ":" +:+ "8080" +:+ "/"
           +:+ "respond"))
  = Ok (Some "annotator", Some "8080", Some "respond").
Proof.
  apply (parse_connector_url_roundtrip "http" "annotator" "8080" "respond");
    reflexivity.
Defined.

(** X2: a URL that ends after the port, scheme://host:port, parses to the
    host, the port and the empty endpoint, under the same conditions on
    scheme, host and port. *)
Theorem parse_connector_url_roundtrip_no_endpoint (scheme host port : string) :
  count_char "/" scheme = 0 ->
  count_char "/" host = 0 -> count_char ":" host = 0 ->
  count_char "/" port = 0 -> count_char ":" port = 0 ->
  _parse_connector_url (Some (scheme +:+ "://" +:+ host +:+ ":" +:+ port))
  = Ok (Some host, Some port, Some "").
Proof.
  intros Hscheme Hhost Hhost' Hport Hport'.
  rewrite parse_connector_url_truthy by (by apply truthy_append_r).
  destruct (url_segments_no_endpoint scheme host port) as [-> ->]; try done.
  by rewrite split_host_port.
Qed.

Lemma parse_connector_url_roundtrip_no_endpoint_witness :
  _parse_connector_url (Some ("http" +:+ "://" +:+ "mongo" +:+ ":" +:+ "27017"))
  = Ok (Some "mongo", Some "27017", Some "").
Proof.
  apply (parse_connector_url_roundtrip_no_endpoint "http" "mongo" "27017");
    reflexivity.
Defined.

(** X3: the host and the port that the parser returns contain neither a
    colon nor a slash. *)
Theorem parse_connector_url_clean_host_port
    (url : option string) (host port : string) (endpoint : option string) :
  _parse_connector_url url = Ok (Some host, Some port, endpoint) ->
  count_char ":" host = 0 /\ count_char "/" host = 0
  /\ count_char ":" port = 0 /\ count_char "/" port = 0.
Proof.
  destruct url as [u|]; [|done].
  destruct (truthy u) eqn:Hu;
    [|unfold _parse_connector_url; by rewrite Hu].
  rewrite parse_connector_url_truthy by done.
  pose proof (split_char_pieces ":" "" (host_segment u) eq_refl) as Hpieces.
  pose proof (split_char_join ":" "" (host_segment u)) as Hjoin.
  destruct (split_scan ":" None 0 "" (host_segment u))
    as [|h [|p' [|x l]]]; try done.
  cbn [unpack2 mbind result_bind fst snd]. intros [= -> -> _].
  apply Forall_cons in Hpieces as [Hh Hp].
  apply Forall_cons in Hp as [Hp _].
  assert (count_char "/" (host_segment u) = 0) as Hslash.
  { unfold host_segment.
    destruct (split_scan_head "/" (Some 1) 0 ""
                (default "" (last (split_scan "//" None 0 "" u))))
      as [x Hx].
    rewrite Hx. apply (split_char_once_head "/" "" _ x eq_refl Hx). }
  cbn [join] in Hjoin. rewrite append_nil_l in Hjoin. rewrite <- Hjoin in Hslash.
  rewrite !count_char_append in Hslash. simpl in Hslash.
  repeat split; [done|lia|done|lia].
Qed.

Lemma parse_connector_url_clean_host_port_witness :
  count_char ":" "annotator" = 0 /\ count_char "/" "annotator" = 0
  /\ count_char ":" "8080" = 0 /\ count_char "/" "8080" = 0.
Proof.
  apply (parse_connector_url_clean_host_port
           (Some "http://annotator:8080/respond") "annotator" "8080"
           (Some "respond")).
  reflexivity.
Defined.

End UrlFacts.

(** ** The compose wrapper: filtering and adding *)

Section ComposeFacts.

Import Generics.

Context {k : compose_kind}.
Implicit Types (self : Compose k) (d : Dict.t AnyContainer).

Lemma dict_filter_keys_map_values {V W} (f : V -> W) keep (d : Dict.t V) :
  Dict.filter_keys keep (Dict.map_values f d)
  = Dict.map_values f (Dict.filter_keys keep d).
Proof.
  unfold Dict.filter_keys, Dict.map_values.
  induction d as [|[k0 v0] d IH]; simpl; [done|].
  destruct (keep k0); simpl; by rewrite IH.
Qed.

Lemma dict_filter_keys_all {V} keep (d : Dict.t V) :
  (forall x, x ∈ Dict.keys d -> keep x = true) ->
  Dict.filter_keys keep d = d.
Proof.
  unfold Dict.filter_keys, Dict.keys.
  induction d as [|[k0 v0] d IH]; simpl; intros Hall; [done|].
  rewrite Hall by apply list_elem_of_here.
  rewrite IH; [done|]. intros x Hx. by apply Hall, list_elem_of_further.
Qed.

Lemma dict_keys_filter_keys_elem {V} keep (d : Dict.t V) x :
  x ∈ Dict.keys (Dict.filter_keys keep d) <-> x ∈ Dict.keys d /\ keep x = true.
Proof.
  rewrite dict_keys_filter_keys, !list_elem_of_In, filter_In. done.
Qed.

(** The services of a filtered compose document. *)
Lemma compose_filter_services_value self include_names exclude_names inplace :
  value (YmlDreamConfig.filter_services self include_names exclude_names inplace)
  = compose_validate k (version self)
      (Dict.filter_keys
         (fun n =>
            bool_decide (n ∈ py_or include_names (Dict.keys (services self)))
            && negb (bool_decide (n ∈ py_or exclude_names [])))
         (services self)).
Proof. unfold YmlDreamConfig.filter_services. by destruct inplace. Qed.

(** X4: filtering a compose document a second time with the same lists
    changes nothing. *)
Theorem compose_filter_services_idempotent self
    (include_names exclude_names : option (list string))
    (inplace inplace' : bool) :
  let once :=
    value (YmlDreamConfig.filter_services self include_names exclude_names
             inplace) in
  value (YmlDreamConfig.filter_services once include_names exclude_names
           inplace')
  = once.
Proof.
  intros once. subst once. rewrite !compose_filter_services_value.
  unfold compose_validate. cbn [version services]. f_equal.
  rewrite dict_filter_keys_map_values, dict_map_values_idemp by done.
  f_equal. rewrite dict_keys_map_values.
  apply dict_filter_keys_all. intros x Hx.
  pose proof Hx as Hx'.
  apply dict_keys_filter_keys_elem in Hx' as [Hin Hkeep].
  apply andb_prop in Hkeep as [Hinc Hexc]. rewrite Hexc, andb_true_r.
  apply bool_decide_eq_true_2.
  destruct include_names as [[|n l]|]; simpl; [done| |done].
  by apply bool_decide_eq_true_1 in Hinc.
Qed.

(** X5: looking a name up in a filtered compose document gives the
    container of the source document, read as the kind's container
    class, when the name is included and not excluded, and raises
    [KeyError] otherwise; a name in both lists is gone. *)
Theorem compose_filter_services_getitem self
    (include_names exclude_names : option (list string)) (inplace : bool)
    (name : string) :
  YmlDreamConfig.getitem
    (value (YmlDreamConfig.filter_services self include_names exclude_names
              inplace)) name
  = if bool_decide (name ∈ py_or include_names (Dict.keys (services self)))
       && negb (bool_decide (name ∈ py_or exclude_names []))
    then container_parse_obj (container_class_of k)
           <$> YmlDreamConfig.getitem self name
    else Raise KeyError.
Proof.
  rewrite compose_filter_services_value. unfold YmlDreamConfig.getitem.
  rewrite services_compose_validate, dict_get_map_values, dict_get_filter_keys.
  destruct (_ && _); [|done].
  by destruct (Dict.get name (services self)).
Qed.

(** X6: filtering keeps the version, and the names of the result are the
    names of the source that pass the test, in their order and without
    repetition. *)
Theorem compose_filter_services_keys self
    (include_names exclude_names : option (list string)) (inplace : bool) :
  let result :=
    value (YmlDreamConfig.filter_services self include_names exclude_names
             inplace) in
  version result = version self
  /\ Dict.keys (services result)
     = List.filter
         (fun n =>
            bool_decide (n ∈ py_or include_names (Dict.keys (services self)))
            && negb (bool_decide (n ∈ py_or exclude_names [])))
         (Dict.keys (services self))
  /\ (NoDup (Dict.keys (services self)) -> NoDup (Dict.keys (services result))).
Proof.
  intros result. subst result. rewrite compose_filter_services_value.
  rewrite services_compose_validate, dict_keys_map_values.
  split; [done|]. split; [apply dict_keys_filter_keys|].
  apply dict_keys_filter_keys_NoDup.
Qed.

(** The services after [add_service]. *)
Lemma compose_add_service_value self name definition inplace :
  value (YmlDreamConfig.add_service self name definition inplace)
  = compose_validate k (version self)
      (Dict.set name definition (services self)).
Proof. unfold YmlDreamConfig.add_service. by destruct inplace. Qed.

(** X7: after [add_service] the name holds the new definition, read as
    the kind's container class, and every other name holds what it held,
    read the same way; a name that was missing stays missing. *)
Theorem compose_add_service_getitem self (name : string)
    (definition : AnyContainer) (inplace : bool) (other : string) :
  YmlDreamConfig.getitem
    (value (YmlDreamConfig.add_service self name definition inplace)) other
  = if decide (name = other)
    then Ok (container_parse_obj (container_class_of k) definition)
    else container_parse_obj (container_class_of k)
           <$> YmlDreamConfig.getitem self other.
Proof.
  rewrite compose_add_service_value. unfold YmlDreamConfig.getitem.
  rewrite services_compose_validate, dict_get_map_values, dict_get_set.
  destruct (decide (name = other)); [done|].
  by destruct (Dict.get other (services self)).
Qed.

(** X8: [add_service] replaces a service where it stands and puts a new
    one last; the other names keep their order. *)
Theorem compose_add_service_keys self (name : string)
    (definition : AnyContainer) (inplace : bool) :
  Dict.keys
    (services (value (YmlDreamConfig.add_service self name definition inplace)))
  = if decide (name ∈ Dict.keys (services self))
    then Dict.keys (services self)
    else (Dict.keys (services self) ++ [name])%list.
Proof.
  rewrite compose_add_service_value, services_compose_validate.
  by rewrite dict_keys_map_values, dict_keys_set.
Qed.

Lemma dict_filter_keys_set_other {V} keep name (v : V) (d : Dict.t V) :
  keep name = false ->
  Dict.filter_keys keep (Dict.set name v d) = Dict.filter_keys keep d.
Proof.
  intros Hname. unfold Dict.filter_keys.
  induction d as [|[k0 v0] d IH]; simpl.
  - by rewrite Hname.
  - destruct (decide (k0 = name)) as [->|Hne]; simpl.
    + by rewrite Hname.
    + destruct (keep k0); by rewrite IH.
Qed.

(** X9: adding a service and then filtering it out is the same as
    filtering it out of the source document. *)
Theorem compose_add_then_exclude self (name : string)
    (definition : AnyContainer) (inplace inplace' : bool) :
  value
    (YmlDreamConfig.filter_services
       (value (YmlDreamConfig.add_service self name definition inplace))
       None (Some [name]) inplace')
  = value (YmlDreamConfig.filter_services self None (Some [name]) inplace').
Proof.
  rewrite !compose_filter_services_value, compose_add_service_value.
  unfold compose_validate. cbn [version services py_or]. f_equal.
  rewrite dict_filter_keys_map_values, dict_map_values_idemp by done.
  f_equal. rewrite dict_keys_map_values.
  rewrite (dict_filter_keys_ext _
             (fun n => negb (bool_decide (n ∈ [name])))).
  2:{ intros x Hx. by rewrite (bool_decide_eq_true_2 _ Hx). }
  rewrite (dict_filter_keys_ext
             (fun n => bool_decide (n ∈ Dict.keys (services self)) && _)
             (fun n => negb (bool_decide (n ∈ [name])))).
  2:{ intros x Hx. by rewrite (bool_decide_eq_true_2 _ Hx). }
  apply dict_filter_keys_set_other.
  rewrite bool_decide_eq_true_2; [done|apply list_elem_of_here].
Qed.

End ComposeFacts.

(** ** The pipeline filter as a selection *)

Section PipelineFacts.

Import PipelineGenerics.

Lemma list_filter_sublist {A} (f : A -> bool) (l : list A) :
  sublist (List.filter f l) l.
Proof.
  induction l as [|x l IH]; simpl; [constructor|].
  destruct (f x); by constructor.
Qed.

Lemma list_filter_idemp {A} (f : A -> bool) (l : list A) :
  List.filter f (List.filter f l) = List.filter f l.
Proof.
  induction l as [|x l IH]; simpl; [done|].
  destruct (f x) eqn:Hx; simpl; [by rewrite Hx, IH|done].
Qed.

Lemma dict_keys_filter_keys_values_NoDup {V} (keep : string -> V -> bool)
    (d : Dict.t V) :
  NoDup (Dict.keys d) -> NoDup (Dict.keys (Dict.filter_keys_values keep d)).
Proof.
  unfold Dict.keys, Dict.filter_keys_values.
  induction d as [|[k0 v0] d IH]; simpl; [done|].
  intros [Hk0 Hnd]%NoDup_cons. destruct (keep k0 v0); simpl; [|by apply IH].
  apply NoDup_cons. split; [|by apply IH].
  intros Hin. apply Hk0. apply list_elem_of_In in Hin.
  apply list_elem_of_In. apply in_map_iff in Hin as ([k v] & <- & Hin).
  apply filter_In in Hin as [Hin _]. by apply (in_map fst d (k, v)).
Qed.

Lemma dict_elem_filter_keys_values {V} (keep : string -> V -> bool)
    (d : Dict.t V) k v :
  (k, v) ∈ Dict.filter_keys_values keep d <-> (k, v) ∈ d /\ keep k v = true.
Proof.
  unfold Dict.filter_keys_values. rewrite !list_elem_of_In, filter_In. done.
Qed.

Lemma filter_connector_step_Ok names exclude_names k v acc acc' :
  DreamPipeline.filter_connector_step names exclude_names (k, v) acc = Ok acc' ->
  acc' = if connector_kept names exclude_names v then Dict.set k v acc else acc.
Proof.
  unfold DreamPipeline.filter_connector_step, connector_kept.
  destruct (opt_truthy _); simpl; [|congruence].
  destruct (_parse_connector_url _) as [[[host port] endpoint]|e]; [|done].
  simpl. destruct (_ && _); congruence.
Qed.

Lemma filter_connectors_by_name_Ok d names exclude_names r :
  NoDup (Dict.keys d) ->
  DreamPipeline._filter_connectors_by_name d names exclude_names = Ok r ->
  r = Dict.filter_keys_values
        (fun _ v => connector_kept names exclude_names v) d.
Proof.
  intros Hnd Hr.
  apply (for_each_filter _ (fun _ v => connector_kept names exclude_names v))
    in Hr; try done.
  - intros k v acc acc'. apply filter_connector_step_Ok.
  - intros k _. apply not_elem_of_nil.
Qed.

(** A URL that parses to a host is there. *)
Lemma parse_host_truthy u host port endpoint :
  _parse_connector_url u = Ok (Some host, port, endpoint) ->
  opt_truthy u = true.
Proof.
  destruct u as [u|]; [|done]. simpl. unfold _parse_connector_url.
  by destruct (PyStr.truthy u).
Qed.

(** X10: [_filter_connectors_by_name] selects: on a dictionary without
    repeated keys the result is a sub-sequence of the source, and it
    holds a connector exactly when its URL parses to a host that is in
    the names and not in the excluded names. *)
Theorem filter_connectors_by_name_selects
    (d r : Dict.t PipelineConfConnector) (names exclude_names : list string) :
  NoDup (Dict.keys d) ->
  DreamPipeline._filter_connectors_by_name d names exclude_names = Ok r ->
  sublist r d
  /\ forall k v host port endpoint,
       Dict.get k d = Some v ->
       _parse_connector_url (url v) = Ok (Some host, port, endpoint) ->
       (Dict.get k r = Some v <-> host ∈ names /\ host ∉ exclude_names).
Proof.
  intros Hnd Hr. apply filter_connectors_by_name_Ok in Hr as ->; [|done].
  split; [apply list_filter_sublist|].
  intros k v host port endpoint Hget Hparse.
  rewrite dict_get_filter_keys_values, Hget by done.
  unfold connector_kept.
  rewrite (parse_host_truthy _ _ _ _ Hparse), Hparse. simpl.
  destruct (bool_decide (host ∈ names)) eqn:Hin;
    destruct (bool_decide (host ∈ exclude_names)) eqn:Hex; simpl;
    repeat match goal with
      | H : bool_decide _ = true |- _ => apply bool_decide_eq_true_1 in H
      | H : bool_decide _ = false |- _ => apply bool_decide_eq_false_1 in H
      end;
    split; try done; intros [? ?]; done.
Qed.

(** The same for the sample connectors. *)
Lemma filter_connectors_by_name_selects_witness :
  sublist [("sentseg", Samples2.sentseg_connector)] Samples2.connectors_dict
  /\ forall k v host port endpoint,
       Dict.get k Samples2.connectors_dict = Some v ->
       _parse_connector_url (url v) = Ok (Some host, port, endpoint) ->
       (Dict.get k [("sentseg", Samples2.sentseg_connector)] = Some v
        <-> host ∈ ["sentseg"; "ner"] /\ host ∉ ["ner"]).
Proof.
  apply (filter_connectors_by_name_selects Samples2.connectors_dict
           [("sentseg", Samples2.sentseg_connector)] ["sentseg"; "ner"] ["ner"]).
  - apply (bool_decide_unpack _). vm_compute. exact I.
  - reflexivity.
Defined.

(** X11: [_filter_services_by_name] selects: on a dictionary without
    repeated keys the result is a sub-sequence of the source, and it
    holds a service whose connector URL parses to a host exactly when
    that host is in the names and not in the excluded names. *)
Theorem filter_services_by_name_selects
    (d r : Dict.t PipelineConfService) (names exclude_names : list string) :
  NoDup (Dict.keys d) ->
  DreamPipeline._filter_services_by_name d names exclude_names = Ok r ->
  sublist r d
  /\ forall k v c host port endpoint,
       Dict.get k d = Some v ->
       connector v = ConnectorObject c ->
       _parse_connector_url (url c) = Ok (Some host, port, endpoint) ->
       (Dict.get k r = Some v <-> host ∈ names /\ host ∉ exclude_names).
Proof.
  intros Hnd Hr. apply filter_services_by_name_Ok in Hr as ->; [|done].
  split; [apply list_filter_sublist|].
  intros k v c host port endpoint Hget Hc Hparse.
  rewrite dict_get_filter_keys_values, Hget by done.
  unfold service_kept. rewrite Hc.
  rewrite (parse_host_truthy _ _ _ _ Hparse), Hparse. simpl.
  destruct (bool_decide (host ∈ names)) eqn:Hin;
    destruct (bool_decide (host ∈ exclude_names)) eqn:Hex; simpl;
    repeat match goal with
      | H : bool_decide _ = true |- _ => apply bool_decide_eq_true_1 in H
      | H : bool_decide _ = false |- _ => apply bool_decide_eq_false_1 in H
      end;
    split; try done; intros [? ?]; done.
Qed.

(** The same for the sample skills. *)
Lemma filter_services_by_name_selects_witness :
  sublist [("dff_program_y_skill", Samples.http_service)] Samples.skills_dict
  /\ forall k v c host port endpoint,
       Dict.get k Samples.skills_dict = Some v ->
       connector v = ConnectorObject c ->
       _parse_connector_url (url c) = Ok (Some host, port, endpoint) ->
       (Dict.get k [("dff_program_y_skill", Samples.http_service)] = Some v
        <-> host ∈ ["dff-program-y-skill"] /\ host ∉ []).
Proof.
  apply (filter_services_by_name_selects Samples.skills_dict
           [("dff_program_y_skill", Samples.http_service)]
           ["dff-program-y-skill"] []).
  - apply (bool_decide_unpack _). vm_compute. exact I.
  - reflexivity.
Defined.

(** An entry that passes the test has no URL that fails to parse. *)
Lemma service_kept_not_bad names exclude_names k v :
  service_kept names exclude_names k v = true -> ~ bad_url (service_url v).
Proof.
  unfold service_kept, service_url, bad_url.
  destruct (connector v) as [ref|c]; [by intros _ [? _]|].
  intros Hkept [_ Hbad]. rewrite Hbad in Hkept.
  by rewrite andb_false_r in Hkept.
Qed.

Lemma connector_kept_not_bad names exclude_names v :
  connector_kept names exclude_names v = true -> ~ bad_url (url v).
Proof.
  unfold connector_kept, bad_url. intros Hkept [_ Hbad].
  rewrite Hbad in Hkept. by rewrite andb_false_r in Hkept.
Qed.

(** Filtering the result of [_filter_services_by_name] again gives it
    back. *)
Lemma filter_services_by_name_again d names exclude_names r :
  NoDup (Dict.keys d) ->
  DreamPipeline._filter_services_by_name d names exclude_names = Ok r ->
  DreamPipeline._filter_services_by_name r names exclude_names = Ok r.
Proof.
  intros Hnd Hr. apply filter_services_by_name_Ok in Hr as ->; [|done].
  destruct (DreamPipeline._filter_services_by_name
              (Dict.filter_keys_values (service_kept names exclude_names) d)
              names exclude_names) as [r'|e] eqn:Hr'.
  - apply filter_services_by_name_Ok in Hr' as ->;
      [|by apply dict_keys_filter_keys_values_NoDup].
    unfold Dict.filter_keys_values. by rewrite list_filter_idemp.
  - apply filter_services_by_name_Raise in Hr' as (_ & k & v & Hin & Hbad).
    apply dict_elem_filter_keys_values in Hin as [_ Hkept].
    by apply service_kept_not_bad in Hkept.
Qed.

Lemma filter_connectors_by_name_again d names exclude_names r :
  NoDup (Dict.keys d) ->
  DreamPipeline._filter_connectors_by_name d names exclude_names = Ok r ->
  DreamPipeline._filter_connectors_by_name r names exclude_names = Ok r.
Proof.
  intros Hnd Hr. apply filter_connectors_by_name_Ok in Hr as ->; [|done].
  destruct (DreamPipeline._filter_connectors_by_name
              (Dict.filter_keys_values
                 (fun _ v => connector_kept names exclude_names v) d)
              names exclude_names) as [r'|e] eqn:Hr'.
  - apply filter_connectors_by_name_Ok in Hr' as ->;
      [|by apply dict_keys_filter_keys_values_NoDup].
    unfold Dict.filter_keys_values. by rewrite list_filter_idemp.
  - apply filter_connectors_by_name_Raise in Hr' as (_ & k & v & Hin & Hbad).
    apply dict_elem_filter_keys_values in Hin as [_ Hkept].
    by apply connector_kept_not_bad in Hkept.
Qed.

(** X12: the pipeline filter is idempotent: on a document whose
    dictionaries have no repeated key, filtering a filtered document
    again with the same lists returns it unchanged, and does not raise. *)
Theorem pipeline_filter_services_idempotent
    (self : PipelineConf) (include_names exclude_names : option (list string))
    (inplace inplace' : bool) (r : called PipelineConf) :
  well_keyed self ->
  DreamPipeline.filter_services self include_names exclude_names inplace
    = Ok r ->
  DreamPipeline.filter_services (value r) include_names exclude_names inplace'
    = Ok (mkCalled (value r) (value r)).
Proof.
  intros [Hc Hcats]. unfold categories in Hcats.
  apply Forall_cons in Hcats as [Hn1 Hcats].
  apply Forall_cons in Hcats as [Hn2 Hcats].
  apply Forall_cons in Hcats as [Hn3 Hcats].
  apply Forall_cons in Hcats as [Hn4 Hcats].
  apply Forall_cons in Hcats as [Hn5 Hcats].
  apply Forall_cons in Hcats as [Hn6 _].
  unfold DreamPipeline.filter_services.
  set (names := py_or include_names []).
  set (excluded := py_or exclude_names []).
  destruct (DreamPipeline._filter_connectors_by_name _ names excluded)
    as [cs|e] eqn:Hf0; [|done].
  destruct (DreamPipeline._filter_services_by_name
              (post_annotators _) names excluded) as [d1|e] eqn:Hf1; [|done].
  destruct (DreamPipeline._filter_services_by_name
              (annotators _) names excluded) as [d2|e] eqn:Hf2; [|done].
  destruct (DreamPipeline._filter_services_by_name
              (skill_selectors _) names excluded) as [d3|e] eqn:Hf3; [|done].
  destruct (DreamPipeline._filter_services_by_name
              (skills _) names excluded) as [d4|e] eqn:Hf4; [|done].
  destruct (DreamPipeline._filter_services_by_name
              (post_skill_selector_annotators _) names excluded)
    as [d5|e] eqn:Hf5; [|done].
  destruct (DreamPipeline._filter_services_by_name
              (response_selectors _) names excluded) as [d6|e] eqn:Hf6; [|done].
  cbn [mbind result_bind]. intros [= <-].
  apply filter_connectors_by_name_again in Hf0; [|done].
  apply filter_services_by_name_again in Hf1, Hf2, Hf3, Hf4, Hf5, Hf6; try done.
  assert (value (if inplace
                 then mkCalled
                        (pipeline_validate cs
                           (mkServiceList (last_chance_service (services self))
                              (timeout_service (services self))
                              (bot_annotator_selector (services self))
                              d1 d2 d3 d4 d5 d6))
                        (pipeline_validate cs
                           (mkServiceList (last_chance_service (services self))
                              (timeout_service (services self))
                              (bot_annotator_selector (services self))
                              d1 d2 d3 d4 d5 d6))
                 else mkCalled self
                        (pipeline_validate cs
                           (mkServiceList (last_chance_service (services self))
                              (timeout_service (services self))
                              (bot_annotator_selector (services self))
                              d1 d2 d3 d4 d5 d6)))
          = mkPipeline cs
              (mkServiceList (last_chance_service (services self))
                 (timeout_service (services self))
                 (bot_annotator_selector (services self))
                 d1 d2 d3 d4 d5 d6)) as -> by (by destruct inplace).
  cbn [connectors services post_annotators annotators skill_selectors skills
       post_skill_selector_annotators response_selectors last_chance_service
       timeout_service bot_annotator_selector].
  rewrite Hf0, Hf1, Hf2, Hf3, Hf4, Hf5, Hf6. cbn [mbind result_bind].
  by destruct inplace'.
Qed.

(** The same on the sample pipeline. *)
Lemma pipeline_filter_services_idempotent_witness :
  DreamPipeline.filter_services Samples2.sentseg_pipeline (Some ["sentseg"])
    None true
  = Ok (mkCalled Samples2.sentseg_pipeline Samples2.sentseg_pipeline).
Proof.
  apply (pipeline_filter_services_idempotent Samples2.pipeline
           (Some ["sentseg"]) None false true
           (mkCalled Samples2.pipeline Samples2.sentseg_pipeline)).
  - split; [apply (bool_decide_unpack _); vm_compute; exact I|].
    unfold categories. simpl.
    repeat constructor; apply (bool_decide_unpack _); vm_compute; exact I.
  - reflexivity.
Defined.

Lemma for_each_unchanged {A S} (body : A -> S -> result S) items st r :
  (forall x acc acc', body x acc = Ok acc' -> acc' = acc) ->
  for_each body items st = Ok r -> r = st.
Proof.
  intros Hbody. revert st. induction items as [|x items IH]; intros st; simpl.
  - by intros [= <-].
  - destruct (body x st) as [st'|e] eqn:Hb; [|done]. simpl.
    intros Hr. apply IH in Hr as ->. by apply Hbody in Hb.
Qed.

Lemma filter_services_by_name_no_names d exclude_names r :
  DreamPipeline._filter_services_by_name d [] exclude_names = Ok r -> r = [].
Proof.
  apply for_each_unchanged. intros [k v] acc acc' Hstep.
  apply filter_service_step_Ok in Hstep as ->. unfold service_kept.
  destruct (connector v) as [ref|c]; [done|].
  destruct (opt_truthy (url c)); [|done].
  by destruct (_parse_connector_url (url c)) as [[[[h|] p'] e]|e].
Qed.

Lemma filter_connectors_by_name_no_names d exclude_names r :
  DreamPipeline._filter_connectors_by_name d [] exclude_names = Ok r -> r = [].
Proof.
  apply for_each_unchanged. intros [k v] acc acc' Hstep.
  apply filter_connector_step_Ok in Hstep as ->. unfold connector_kept.
  destruct (opt_truthy (url v)); [|done].
  by destruct (_parse_connector_url (url v)) as [[[[h|] p'] e]|e].
Qed.

(** X13: unlike the compose filter, the pipeline filter reads a missing
    or empty include list as no name at all: the result has no connector
    and no service in any of the six categories (the singletons stay).
    The call raises only when a URL of the document does not parse. *)
Theorem pipeline_filter_services_no_names
    (self : PipelineConf) (exclude_names : option (list string))
    (inplace : bool) :
  let emptied (outcome : result (called PipelineConf)) :=
    match outcome with
    | Ok r =>
        connectors (value r) = []
        /\ Forall (fun d => d = []) (categories (services (value r)))
    | Raise e => e = ValueError /\ has_bad_url self
    end in
  emptied (DreamPipeline.filter_services self None exclude_names inplace)
  /\ emptied (DreamPipeline.filter_services self (Some []) exclude_names
               inplace).
Proof.
  intros emptied.
  assert (emptied
            (DreamPipeline.filter_services self None exclude_names inplace))
    as Hnone; [|by split].
  subst emptied. cbv beta. unfold DreamPipeline.filter_services.
  cbn [py_or]. set (excluded := py_or exclude_names []).
  destruct (DreamPipeline._filter_connectors_by_name _ [] excluded)
    as [cs|e] eqn:Hc; simpl.
  2:{ apply filter_connectors_by_name_Raise in Hc as (-> & k & v & Hin & Hbad).
      split; [done|]. left. eauto. }
  destruct (DreamPipeline._filter_services_by_name
              (post_annotators _) [] excluded)
    as [d1|e] eqn:H1; simpl; [|bad_category H1].
  destruct (DreamPipeline._filter_services_by_name
              (annotators _) [] excluded)
    as [d2|e] eqn:H2; simpl; [|bad_category H2].
  destruct (DreamPipeline._filter_services_by_name
              (skill_selectors _) [] excluded)
    as [d3|e] eqn:H3; simpl; [|bad_category H3].
  destruct (DreamPipeline._filter_services_by_name
              (skills _) [] excluded)
    as [d4|e] eqn:H4; simpl; [|bad_category H4].
  destruct (DreamPipeline._filter_services_by_name
              (post_skill_selector_annotators _) [] excluded)
    as [d5|e] eqn:H5; simpl; [|bad_category H5].
  destruct (DreamPipeline._filter_services_by_name
              (response_selectors _) [] excluded)
    as [d6|e] eqn:H6; simpl; [|bad_category H6].
  apply filter_connectors_by_name_no_names in Hc as ->.
  apply filter_services_by_name_no_names in H1 as ->.
  apply filter_services_by_name_no_names in H2 as ->.
  apply filter_services_by_name_no_names in H3 as ->.
  apply filter_services_by_name_no_names in H4 as ->.
  apply filter_services_by_name_no_names in H5 as ->.
  apply filter_services_by_name_no_names in H6 as ->.
  destruct inplace; simpl; (split; [done|]);
    unfold categories; simpl; repeat constructor.
Qed.

End PipelineFacts.

(** ** Resolving a distribution, both ways *)

Section ResolveFacts.

Lemma plain_component_truthy c : plain_component c -> PyStr.truthy c = true.
Proof. intros (_ & Hne & _). by destruct c. Qed.

Lemma of_str_plain c :
  plain_component c ->
  Pathlib.of_str c = {| Pathlib.anchored := false; Pathlib.parts := [c] |}.
Proof.
  intros (Hslash & Hempty & Hdot). unfold Pathlib.of_str.
  rewrite split_char_none by done. rewrite append_nil_l. f_equal.
  - destruct c as [|a c]; [done|].
    apply count_char_cons_0 in Hslash as [Ha _].
    cbn [PyStr.startswith]. by rewrite Ascii.eqb_sym, Ha.
  - cbn [List.filter]. unfold Pathlib.is_component.
    by rewrite !bool_decide_eq_false_2.
Qed.

Lemma joinpath_plain (p : Path) c :
  plain_component c ->
  p </> c = {| Pathlib.anchored := Pathlib.anchored p;
               Pathlib.parts := (Pathlib.parts p ++ [c])%list |}.
Proof. intros Hc. unfold Pathlib.joinpath. by rewrite of_str_plain. Qed.

Lemma resolve_dist_path_plain name dream_root :
  plain_component name ->
  DreamDist.resolve_dist_path name dream_root
  = {| Pathlib.anchored := Pathlib.anchored (to_Path dream_root);
       Pathlib.parts :=
         (Pathlib.parts (to_Path dream_root) ++ ["assistant_dists"; name])%list
    |}.
Proof.
  intros Hname. unfold DreamDist.resolve_dist_path.
  rewrite (joinpath_plain _ name) by done.
  rewrite (joinpath_plain _ "assistant_dists") by done.
  cbn [Pathlib.anchored Pathlib.parts]. by rewrite <- app_assoc.
Qed.

(** The directory test lets every [Path] through. *)
Lemma check_distribution_path fs (p : Path) :
  DreamDist.check_distribution fs (AsPath p) = Ok ().
Proof.
  unfold DreamDist.check_distribution.
  destruct (is_dir fs p) eqn:Hd.
  - by rewrite (is_dir_path_exists _ _ Hd).
  - by rewrite andb_false_r.
Qed.

(** X14: resolving a name and a Dream root to the distribution path and
    that path back to name and root is a round trip, for a name that is
    a single path component. *)
Theorem resolve_dist_path_roundtrip (name : string) (dream_root : pathlike) :
  plain_component name ->
  DreamDist.resolve_name_and_dream_root
    (AsPath (DreamDist.resolve_dist_path name dream_root))
  = Ok (name, to_Path dream_root).
Proof.
  intros Hname. unfold DreamDist.resolve_name_and_dream_root.
  rewrite resolve_dist_path_plain by done. cbn [to_Path].
  unfold Pathlib.parents, Pathlib.name. cbn [Pathlib.anchored Pathlib.parts].
  rewrite length_app. cbn [length].
  rewrite decide_True by lia. cbn [mbind result_bind].
  replace (length (Pathlib.parts (to_Path dream_root)) + 2 - 1 - 1)
    with (length (Pathlib.parts (to_Path dream_root))) by lia.
  rewrite take_app_length.
  change ["assistant_dists"; name] with (["assistant_dists"] ++ [name])%list.
  rewrite app_assoc, last_snoc. cbn [default].
  by destruct (to_Path dream_root).
Qed.

(** The round trip for the sample distribution. *)
Lemma resolve_dist_path_roundtrip_witness :
  DreamDist.resolve_name_and_dream_root
    (AsPath (DreamDist.resolve_dist_path "demo" (AsStr "/dream")))
  = Ok ("demo", to_Path (AsStr "/dream")).
Proof.
  apply (resolve_dist_path_roundtrip "demo" (AsStr "/dream")).
  repeat split; done.
Defined.

(** X15: the two ways of calling [resolve_all_paths] agree: for a
    single-component name and a Dream root, the call by name and root
    returns the distribution path, and the call by that path returns the
    same path and name, with the root as a [Path]. *)
Theorem resolve_all_paths_symmetry
    (fs : filesystem) (name : string) (dream_root : pathlike) :
  plain_component name ->
  pathlike_truthy dream_root = true ->
  let dist_path := AsPath (DreamDist.resolve_dist_path name dream_root) in
  DreamDist.resolve_all_paths fs None (Some name) (Some dream_root)
    = Ok (dist_path, name, dream_root)
  /\ DreamDist.resolve_all_paths fs (Some dist_path) None None
    = Ok (dist_path, name, AsPath (to_Path dream_root)).
Proof.
  intros Hname Hroot dist_path. subst dist_path.
  unfold DreamDist.resolve_all_paths.
  cbn [truthy_pathlike truthy_str pathlike_truthy].
  rewrite (plain_component_truthy _ Hname), Hroot.
  rewrite resolve_dist_path_roundtrip by done.
  cbn [mbind result_bind]. by rewrite check_distribution_path.
Qed.

Lemma resolve_all_paths_symmetry_witness :
  let dist_path :=
    AsPath (DreamDist.resolve_dist_path "demo" (AsStr "/dream")) in
  DreamDist.resolve_all_paths Samples.disk None (Some "demo")
      (Some (AsStr "/dream"))
    = Ok (dist_path, "demo", AsStr "/dream")
  /\ DreamDist.resolve_all_paths Samples.disk (Some dist_path) None None
    = Ok (dist_path, "demo", AsPath (to_Path (AsStr "/dream"))).
Proof.
  apply (resolve_all_paths_symmetry Samples.disk "demo" (AsStr "/dream")).
  - repeat split; done.
  - reflexivity.
Defined.

(** X16: without a distribution path, and with the name or the Dream root
    missing or empty, [resolve_all_paths] raises [ValueError], whatever
    the filesystem holds. *)
Theorem resolve_all_paths_ValueError
    (fs : filesystem) (dist_path : option pathlike) (name : option string)
    (dream_root : option pathlike) :
  truthy_pathlike dist_path = None ->
  truthy_str name = None \/ truthy_pathlike dream_root = None ->
  DreamDist.resolve_all_paths fs dist_path name dream_root = Raise ValueError.
Proof.
  intros Hdist Hmissing. unfold DreamDist.resolve_all_paths. rewrite Hdist.
  destruct Hmissing as [-> | ->]; [done|].
  by destruct (truthy_str name).
Qed.

Lemma resolve_all_paths_ValueError_witness :
  DreamDist.resolve_all_paths Samples.disk (Some (AsStr "")) (Some "demo") None
  = Raise ValueError.
Proof.
  apply (resolve_all_paths_ValueError Samples.disk (Some (AsStr ""))
           (Some "demo") None).
  - reflexivity.
  - right. reflexivity.
Defined.

(** X17: [DreamDist.from_dist] never returns for a distribution path given
    as a [str]: an empty string raises [ValueError], any other string
    ends in [IndexError] or [AttributeError], before any file is read. *)
Theorem from_dist_str_fails
    (fs : filesystem) (s : string)
    (pipeline_conf compose_override compose_dev compose_proxy
       compose_local : bool) :
  exists e,
    DreamDistOps.from_dist fs (Some (AsStr s)) pipeline_conf compose_override
      compose_dev compose_proxy compose_local
    = Raise e
    /\ (e = ValueError \/ e = IndexError \/ e = AttributeError)
    /\ (PyStr.truthy s = false <-> e = ValueError).
Proof.
  unfold DreamDistOps.from_dist, DreamDist.resolve_all_paths.
  cbn [truthy_pathlike truthy_str pathlike_truthy].
  destruct (PyStr.truthy s) eqn:Hs.
  - unfold DreamDist.resolve_name_and_dream_root, Pathlib.parents.
    case_decide.
    + exists AttributeError. cbn. split; [done|]. split; [auto|]. by split.
    + exists IndexError. cbn. split; [done|]. split; [auto|]. by split.
  - exists ValueError. cbn. split; [done|]. split; [auto|]. by split.
Qed.

End ResolveFacts.

(** ** Loading a distribution *)

Section LoadFacts.

Import Generics.

Lemma load_configs_Ok fs dist_path f1 f2 f3 f4 f5 kw :
  DreamDistOps.load_configs_with_default_filenames fs dist_path f1 f2 f3 f4 f5
    None = Ok kw ->
  DreamDistOps.load_kind f1 fs dist_path = Ok (DreamDistOps.kw_pipeline_conf kw)
  /\ DreamDistOps.load_kind f2 fs dist_path
     = Ok (DreamDistOps.kw_compose_override kw)
  /\ DreamDistOps.load_kind f3 fs dist_path = Ok (DreamDistOps.kw_compose_dev kw)
  /\ DreamDistOps.load_kind f4 fs dist_path
     = Ok (DreamDistOps.kw_compose_proxy kw)
  /\ DreamDistOps.load_kind f5 fs dist_path
     = Ok (DreamDistOps.kw_compose_local kw).
Proof.
  unfold DreamDistOps.load_configs_with_default_filenames.
  destruct (DreamDistOps.load_kind f1 fs dist_path) as [p|e]; [|done].
  destruct (DreamDistOps.load_kind f2 fs dist_path) as [o|e]; [|done].
  destruct (DreamDistOps.load_kind f3 fs dist_path) as [d|e]; [|done].
  destruct (DreamDistOps.load_kind f4 fs dist_path) as [x|e]; [|done].
  destruct (DreamDistOps.load_kind f5 fs dist_path) as [l|e]; [|done].
  cbn. by intros [= <-].
Qed.

(** X18: a distribution made by [from_name] lives where its name and root
    say: its path is dream_root/assistant_dists/name, its name and root
    are the ones given, and each member is what [from_dist] of its kind
    loads from that path when its flag is set, and [None] otherwise. *)
Theorem from_name_identity
    (fs : filesystem) (name : string) (dream_root : pathlike)
    (pipeline_conf compose_override compose_dev compose_proxy
       compose_local : bool) (dist : DreamDist.t) :
  DreamDistOps.from_name fs name dream_root pipeline_conf compose_override
    compose_dev compose_proxy compose_local = Ok dist ->
  let here := AsPath (DreamDist.dist_path dist) in
  DreamDist.dist_path dist = to_Path dream_root </> "assistant_dists" </> name
  /\ DreamDist.name dist = name
  /\ DreamDist.dream_root dist = dream_root
  /\ DreamDistOps.load_kind pipeline_conf fs here
     = Ok (DreamDist.pipeline_conf dist)
  /\ DreamDistOps.load_kind compose_override fs here
     = Ok (DreamDist.compose_override dist)
  /\ DreamDistOps.load_kind compose_dev fs here
     = Ok (DreamDist.compose_dev dist)
  /\ DreamDistOps.load_kind compose_proxy fs here
     = Ok (DreamDist.compose_proxy dist)
  /\ DreamDistOps.load_kind compose_local fs here
     = Ok (DreamDist.compose_local dist).
Proof.
  unfold DreamDistOps.from_name, DreamDist.resolve_all_paths.
  cbn [truthy_pathlike truthy_str].
  destruct (PyStr.truthy name); [|done].
  destruct (pathlike_truthy dream_root); [|done].
  cbn [mbind result_bind]. rewrite check_distribution_path.
  cbn [mbind result_bind].
  destruct (DreamDistOps.load_configs_with_default_filenames _ _ _ _ _ _ _ _)
    as [kw|e] eqn:Hload; [|done].
  cbn [mbind result_bind]. intros [= <-].
  apply load_configs_Ok in Hload. cbn. tauto.
Qed.

Lemma from_name_identity_witness :
  let dist :=
    DreamDistOps.init
      (AsPath (DreamDist.resolve_dist_path "demo" (AsStr "/dream")))
      "demo" (AsStr "/dream")
      (DreamDistOps.mkKwargs None None (Some Samples.dev_doc) None None) in
  let here := AsPath (DreamDist.dist_path dist) in
  DreamDist.dist_path dist
    = to_Path (AsStr "/dream") </> "assistant_dists" </> "demo"
  /\ DreamDist.name dist = "demo"
  /\ DreamDist.dream_root dist = AsStr "/dream"
  /\ DreamDistOps.load_kind false Samples.disk here
     = Ok (DreamDist.pipeline_conf dist)
  /\ DreamDistOps.load_kind false Samples.disk here
     = Ok (DreamDist.compose_override dist)
  /\ DreamDistOps.load_kind true Samples.disk here
     = Ok (DreamDist.compose_dev dist)
  /\ DreamDistOps.load_kind false Samples.disk here
     = Ok (DreamDist.compose_proxy dist)
  /\ DreamDistOps.load_kind false Samples.disk here
     = Ok (DreamDist.compose_local dist).
Proof.
  apply (from_name_identity Samples.disk "demo" (AsStr "/dream")
           false false true false false).
  vm_compute. reflexivity.
Defined.




Lemma filter_compose_names {k} names (c : option (Compose k)) n :
  names <> [] ->
  n ∈ compose_names (DreamDistOps.filter_compose names c) -> n ∈ names.
Proof.
  intros Hne. unfold DreamDistOps.filter_compose.
  destruct c as [c|]; cbn [fmap option_fmap option_map compose_names];
    [|by intros ?%not_elem_of_nil].
  rewrite compose_filter_services_value, services_compose_validate.
  rewrite dict_keys_map_values.
  intros [_ Hkeep]%dict_keys_filter_keys_elem.
  apply andb_prop in Hkeep as [Hin _]. apply bool_decide_eq_true_1 in Hin.
  by destruct names.
Qed.

(** X20: a distribution made by [from_template] with a list of service
    names has the path of the new distribution, not the template's, and
    its compose documents hold no service outside the list. *)
Theorem from_template_names
    (fs : filesystem) (name : string) (dream_root : pathlike)
    (template_dist_name : string) (service_names : list string)
    (pipeline_conf compose_override compose_dev compose_proxy
       compose_local : bool) (dist : DreamDist.t) :
  service_names <> [] ->
  DreamDistOps.from_template fs name dream_root template_dist_name
    (Some service_names) pipeline_conf compose_override compose_dev
    compose_proxy compose_local = Ok dist ->
  DreamDist.dist_path dist = DreamDist.resolve_dist_path name dream_root
  /\ forall n,
       n ∈ (compose_names (DreamDist.compose_override dist)
            ++ compose_names (DreamDist.compose_dev dist)
            ++ compose_names (DreamDist.compose_proxy dist)
            ++ compose_names (DreamDist.compose_local dist))%list ->
       n ∈ service_names.
Proof.
  intros Hne. unfold DreamDistOps.from_template, DreamDist.resolve_all_paths.
  cbn [truthy_pathlike truthy_str].
  destruct (PyStr.truthy name); [|done].
  destruct (pathlike_truthy dream_root); [|done].
  cbn [mbind result_bind]. rewrite check_distribution_path.
  cbn [mbind result_bind].
  unfold DreamDistOps.load_configs_with_default_filenames.
  set (there := AsPath (DreamDist.resolve_dist_path template_dist_name dream_root)).
  destruct (DreamDistOps.load_kind pipeline_conf fs there) as [p|e]; [|done].
  destruct (DreamDistOps.load_kind compose_override fs there) as [o|e]; [|done].
  destruct (DreamDistOps.load_kind compose_dev fs there) as [d|e]; [|done].
  destruct (DreamDistOps.load_kind compose_proxy fs there) as [x|e]; [|done].
  destruct (DreamDistOps.load_kind compose_local fs there) as [l|e]; [|done].
  cbn [mbind result_bind].
  destruct service_names as [|n0 rest]; [done|].
  destruct (DreamDistOps.filter_pipeline (n0 :: rest) p) as [p'|e]; [|done].
  cbn [mbind result_bind]. intros [= <-]. split; [done|].
  cbn [DreamDistOps.init DreamDist.compose_override DreamDist.compose_dev
       DreamDist.compose_proxy DreamDist.compose_local
       DreamDistOps.kw_compose_override DreamDistOps.kw_compose_dev
       DreamDistOps.kw_compose_proxy DreamDistOps.kw_compose_local].
  intros n. rewrite !elem_of_app.
  intros [Hin|[Hin|[Hin|Hin]]]; by apply filter_compose_names in Hin.
Qed.

Lemma from_template_names_witness :
  DreamDist.dist_path Samples2.template_copy
  = DreamDist.resolve_dist_path "fresh" (AsStr "/dream")
  /\ forall n,
       n ∈ (compose_names (DreamDist.compose_override Samples2.template_copy)
            ++ compose_names (DreamDist.compose_dev Samples2.template_copy)
            ++ compose_names (DreamDist.compose_proxy Samples2.template_copy)
            ++ compose_names (DreamDist.compose_local Samples2.template_copy))%list ->
       n ∈ ["agent"; "sentseg"].
Proof.
  apply (from_template_names Samples.disk "fresh" (AsStr "/dream") "demo"
           ["agent"; "sentseg"] false false true false false
           Samples2.template_copy).
  - done.
  - vm_compute. reflexivity.
Defined.

End LoadFacts.

(** ** Saving a distribution *)

Section SaveFacts.

Lemma node_at_insert_ne fs key key' n :
  key' <> key ->
  node_at {| cwd := cwd fs; nodes := <[key := n]> (nodes fs) |} key'
  = node_at fs key'.
Proof.
  intros Hne. destruct key' as [|c k]; [done|].
  unfold node_at. simpl. by rewrite lookup_insert_ne.
Qed.

Lemma node_at_insert_eq fs key n :
  key <> [] ->
  node_at {| cwd := cwd fs; nodes := <[key := n]> (nodes fs) |} key = Some n.
Proof.
  intros Hne. destruct key as [|c k]; [done|].
  unfold node_at. simpl. by rewrite lookup_insert_eq.
Qed.

Lemma make_dir_node fs key : node_at (make_dir fs key) key = Some Dir.
Proof.
  destruct key as [|c key]; [done|]. by apply node_at_insert_eq.
Qed.

Lemma make_dir_parent fs key :
  check_parent fs key = Ok () -> check_parent (make_dir fs key) key = Ok ().
Proof.
  destruct key as [|c key]; [done|]. unfold check_parent, make_dir.
  rewrite node_at_insert_ne; [done|]. by apply removelast_shorter.
Qed.

Lemma os_mkdir_Ok fs key fs1 :
  os_mkdir fs key = Ok fs1 ->
  fs1 = make_dir fs key /\ check_parent fs key = Ok ().
Proof.
  unfold os_mkdir. destruct (check_parent fs key) as [[]|e]; [|done].
  cbn [mbind result_bind]. destruct (node_at fs key); [done|].
  by intros [= <-].
Qed.

Lemma os_mkdir_Raise fs key e :
  os_mkdir fs key = Raise e ->
  e = FileExistsError /\ check_parent fs key = Ok ()
  \/ e = FileNotFoundError
  \/ e = NotADirectoryError /\ check_parent fs key = Raise NotADirectoryError.
Proof.
  unfold os_mkdir, check_parent.
  destruct (node_at fs (removelast key)) as [[|?]|]; cbn [mbind result_bind].
  - destruct (node_at fs key); [|done]. intros [= <-]. by left.
  - intros [= <-]. by right; right.
  - intros [= <-]. by right; left.
Qed.

Lemma mkdir_failed_Ok fs key exist_ok e fs1 :
  mkdir_failed fs key exist_ok e = Ok fs1 ->
  fs1 = fs /\ node_at fs key = Some Dir.
Proof.
  unfold mkdir_failed. destruct exist_ok; [|done].
  destruct (node_at fs key) as [[|?]|]; cbn [negb orb]; [|done..].
  by intros [= <-].
Qed.

(** A [mkdir] with [parents] that returns leaves a directory at the path,
    in a directory unless the entry above the path was a regular file. *)
Lemma mkdir_parents_Ok rkey : forall fs exist_ok fs1,
  mkdir_parents fs rkey exist_ok = Ok fs1 ->
  cwd fs1 = cwd fs
  /\ node_at fs1 (rev rkey) = Some Dir
  /\ (check_parent fs (rev rkey) <> Raise NotADirectoryError ->
      check_parent fs1 (rev rkey) = Ok ()).
Proof.
  induction rkey as [|c rparent IH]; intros fs exist_ok fs1;
    cbn [mkdir_parents].
  - change (os_mkdir fs (rev [])) with (@Raise filesystem FileExistsError).
    cbv iota. intros (-> & Hd)%mkdir_failed_Ok. done.
  - set (key := rev (c :: rparent)).
    destruct (os_mkdir fs key) as [fs'|e] eqn:Hos.
    + intros [= <-]. apply os_mkdir_Ok in Hos as (-> & Hpar).
      split; [done|]. split; [apply make_dir_node|].
      intros _. by apply make_dir_parent.
    + apply os_mkdir_Raise in Hos as [[-> Hpar]|[->|[-> Hpar]]].
      * intros (-> & Hd)%mkdir_failed_Ok. done.
      * destruct (mkdir_parents fs rparent true) as [fs0|e0] eqn:Hrec; [|done].
        cbn [mbind result_bind]. apply IH in Hrec as (Hcwd0 & Hd0 & _).
        assert (check_parent fs0 key = Ok ()) as Hpar0.
        { unfold check_parent, key. cbn [rev]. rewrite removelast_last.
          by rewrite Hd0. }
        unfold mkdir_plain.
        destruct (os_mkdir fs0 key) as [fs2|e2] eqn:Hos2.
        -- intros [= <-]. apply os_mkdir_Ok in Hos2 as (-> & _).
           split; [done|]. split; [apply make_dir_node|].
           intros _. by apply make_dir_parent.
        -- apply os_mkdir_Raise in Hos2 as [[-> _]|[->|[-> Hpar2]]];
             [|done|congruence].
           intros (-> & Hd)%mkdir_failed_Ok. done.
      * intros (-> & Hd)%mkdir_failed_Ok. done.
Qed.

(** On a path that is there, in a directory, [os.mkdir] fails and the
    handler decides. *)
Lemma mkdir_parents_existing fs rkey exist_ok n :
  check_parent fs (rev rkey) = Ok () ->
  node_at fs (rev rkey) = Some n ->
  mkdir_parents fs rkey exist_ok
  = mkdir_failed fs (rev rkey) exist_ok FileExistsError.
Proof.
  intros Hpar Hn.
  destruct rkey; cbn [mkdir_parents]; unfold os_mkdir;
    rewrite Hpar; cbn [mbind result_bind]; by rewrite Hn.
Qed.

Lemma locate_joinpath fs (p : Path) c :
  plain_component c -> locate fs (p </> c) = (locate fs p ++ [c])%list.
Proof.
  intros Hc. rewrite joinpath_plain by done. unfold locate.
  cbn [Pathlib.anchored Pathlib.parts].
  destruct (Pathlib.anchored p); [done|by rewrite app_assoc].
Qed.

Lemma locate_cwd fs fs' p : cwd fs' = cwd fs -> locate fs' p = locate fs p.
Proof. intros Hcwd. unfold locate. by rewrite Hcwd. Qed.

(** What a successful write keeps. *)
Lemma write_file_keeps mode fs p data fs' :
  write_file mode fs p data = Ok fs' ->
  cwd fs' = cwd fs
  /\ (forall key, node_at fs key = Some Dir -> node_at fs' key = Some Dir)
  /\ (forall key, key <> locate fs p -> node_at fs' key = node_at fs key)
  /\ read_file fs' p = Ok data.
Proof.
  intros Hw.
  assert (node_at fs (locate fs p) <> Some Dir) as Hnd.
  { unfold write_file in Hw.
    destruct (check_parent fs (locate fs p)) as [[]|]; [|done].
    cbn [mbind result_bind] in Hw.
    by destruct mode, (node_at fs (locate fs p)) as [[|?]|]. }
  assert (locate fs p <> []) as Hkey.
  { intros Hnil. by rewrite Hnil in Hnd. }
  apply write_file_Ok in Hw as (-> & _ & _).
  split; [done|]. split; [|split].
  - intros key Hd. unfold store. rewrite node_at_insert_ne; [done|].
    intros ->. by rewrite Hd in Hnd.
  - intros key Hne. unfold store. by rewrite node_at_insert_ne.
  - unfold read_file.
    assert (locate (store fs (locate fs p) data) p = locate fs p) as -> by done.
    unfold store. by rewrite node_at_insert_eq.
Qed.

(** One turn of the loop of [save]. *)
Lemma save_config_Ok {C} {cfg : DreamConfig C} (config : option C)
    dist_path overwrite st st' :
  DreamDistOps.save_config config dist_path overwrite st = Ok st' ->
  st'.1 = (st.1 ++ match config with
                   | Some _ => [dist_path </> DEFAULT_FILE_NAME]
                   | None => []
                   end)%list
  /\ cwd st'.2 = cwd st.2
  /\ (forall key, node_at st.2 key = Some Dir -> node_at st'.2 key = Some Dir)
  /\ (forall key, key <> locate st.2 (dist_path </> DEFAULT_FILE_NAME) ->
        node_at st'.2 key = node_at st.2 key)
  /\ saved_at st'.2 dist_path config.
Proof.
  destruct config as [c|]; cbn [DreamDistOps.save_config].
  - unfold to_dist. rewrite dump_unfold.
    destruct (write_file _ _ _ _) as [fs1|] eqn:Hw; [|done].
    cbn [mbind result_bind fst snd]. intros [= <-]. cbn [fst snd].
    apply write_file_keeps in Hw as (Hcwd & Hdir & Hother & Hread).
    split; [done|]. split; [done|]. split; [done|]. split; [done|].
    by intros c' [= <-].
  - intros [= <-]. rewrite app_nil_r.
    split; [done|]. split; [done|]. split; [done|]. split; [done|].
    by intros c.
Qed.

(** A turn for one config keeps the file of another. *)
Lemma save_config_other {C} {cfg : DreamConfig C} {C'} {cfg' : DreamConfig C'}
    (config : option C) (config' : option C') dist_path overwrite st st' :
  plain_component (DEFAULT_FILE_NAME (C := C)) ->
  plain_component (DEFAULT_FILE_NAME (C := C')) ->
  DEFAULT_FILE_NAME (C := C') <> DEFAULT_FILE_NAME (C := C) ->
  DreamDistOps.save_config config dist_path overwrite st = Ok st' ->
  saved_at st.2 dist_path config' -> saved_at st'.2 dist_path config'.
Proof.
  intros Hp Hp' Hne Hs Hsaved c Hc.
  apply save_config_Ok in Hs as (_ & Hcwd & _ & Hother & _).
  specialize (Hsaved c Hc). unfold read_file in *.
  rewrite (locate_cwd _ _ _ Hcwd). rewrite Hother; [done|].
  rewrite !locate_joinpath by done.
  by intros [_ ?]%app_inj_tail.
Qed.

(** With [overwrite] set, a turn for a config whose file is there
    raises. *)
Lemma save_config_existing {C} {cfg : DreamConfig C} (config : option C)
    dist_path st :
  plain_component (DEFAULT_FILE_NAME (C := C)) ->
  node_at st.2 (locate st.2 dist_path) = Some Dir ->
  saved_at st.2 dist_path config ->
  DreamDistOps.save_config config dist_path true st
  = match config with Some _ => Raise FileExistsError | None => Ok st end.
Proof.
  intros Hp Hdir Hsaved. destruct config as [c|]; [|done].
  cbn [DreamDistOps.save_config]. unfold to_dist. rewrite dump_unfold.
  rewrite write_file_x_existing; [done| |].
  - unfold check_parent. rewrite locate_joinpath by done.
    by rewrite removelast_last, Hdir.
  - specialize (Hsaved c eq_refl). unfold read_file in Hsaved.
    unfold path_exists. cbv zeta.
    by destruct (node_at st.2 (locate st.2 (dist_path </> DEFAULT_FILE_NAME))).
Qed.

Lemma parent_is_file_check fs p :
  parent_is_file fs p = false ->
  check_parent fs (locate fs p) <> Raise NotADirectoryError.
Proof.
  unfold parent_is_file, check_parent.
  by destruct (node_at fs (removelast (locate fs p))) as [[|?]|].
Qed.

(** The file of the config of one class outlasts the turn for another. *)
Ltac kept_by writer kept Hturn :=
  refine (save_config_other (cfg := writer) (cfg' := kept)
            _ _ _ _ _ _ _ _ _ Hturn _); [done|done|done|].

(** What a [save] that returns leaves behind. *)
Lemma save_Ok self overwrite fs paths fs' :
  DreamDistOps.save self overwrite fs = Ok (paths, fs') ->
  let dist_path := DreamDist.dist_path self in
  paths = DreamDistOps.config_paths self
  /\ cwd fs' = cwd fs
  /\ node_at fs' (locate fs dist_path) = Some Dir
  /\ (parent_is_file fs dist_path = false ->
      check_parent fs' (locate fs dist_path) = Ok ())
  /\ saved_at fs' dist_path (DreamDist.pipeline_conf self)
  /\ saved_at fs' dist_path (DreamDist.compose_override self)
  /\ saved_at fs' dist_path (DreamDist.compose_dev self)
  /\ saved_at fs' dist_path (DreamDist.compose_proxy self)
  /\ saved_at fs' dist_path (DreamDist.compose_local self).
Proof.
  unfold DreamDistOps.save, mkdir. cbv zeta.
  set (dist_path := DreamDist.dist_path self).
  destruct (mkdir_parents fs (rev (locate fs dist_path)) overwrite)
    as [fs0|] eqn:Hmk; [|done].
  cbn [mbind result_bind].
  destruct (DreamDistOps.save_config (DreamDist.pipeline_conf self) dist_path
              overwrite ([], fs0)) as [st1|] eqn:H1; [|done].
  cbn [mbind result_bind].
  destruct (DreamDistOps.save_config (DreamDist.compose_override self)
              dist_path overwrite st1) as [st2|] eqn:H2; [|done].
  cbn [mbind result_bind].
  destruct (DreamDistOps.save_config (DreamDist.compose_dev self) dist_path
              overwrite st2) as [st3|] eqn:H3; [|done].
  cbn [mbind result_bind].
  destruct (DreamDistOps.save_config (DreamDist.compose_proxy self) dist_path
              overwrite st3) as [st4|] eqn:H4; [|done].
  cbn [mbind result_bind].
  destruct (DreamDistOps.save_config (DreamDist.compose_local self) dist_path
              overwrite st4) as [st5|] eqn:H5; [|done].
  cbn [mbind result_bind]. intros [= ->].
  apply mkdir_parents_Ok in Hmk as (Hcwd0 & Hd0 & Hpar0).
  rewrite rev_involutive in Hd0, Hpar0.
  pose proof (save_config_Ok _ _ _ _ _ H1) as (P1 & W1 & D1 & _ & S1).
  pose proof (save_config_Ok _ _ _ _ _ H2) as (P2 & W2 & D2 & _ & S2).
  pose proof (save_config_Ok _ _ _ _ _ H3) as (P3 & W3 & D3 & _ & S3).
  pose proof (save_config_Ok _ _ _ _ _ H4) as (P4 & W4 & D4 & _ & S4).
  pose proof (save_config_Ok _ _ _ _ _ H5) as (P5 & W5 & D5 & _ & S5).
  cbn [fst snd] in *.
  split; [|split; [|split; [|split]]].
  - unfold DreamDistOps.config_paths. fold dist_path.
    rewrite P5, P4, P3, P2, P1.
    by destruct (DreamDist.pipeline_conf self),
      (DreamDist.compose_override self), (DreamDist.compose_dev self),
      (DreamDist.compose_proxy self), (DreamDist.compose_local self).
  - congruence.
  - exact (D5 _ (D4 _ (D3 _ (D2 _ (D1 _ Hd0))))).
  - intros Hnf%parent_is_file_check. specialize (Hpar0 Hnf).
    unfold check_parent in *.
    destruct (node_at fs0 (removelast (locate fs dist_path))) as [[|?]|] eqn:Hp;
      [|done..].
    by rewrite (D5 _ (D4 _ (D3 _ (D2 _ (D1 _ Hp))))).
  - split; [|split; [|split; [|split]]].
    + kept_by DreamComposeLocal DreamPipeline H5.
      kept_by DreamComposeProxy DreamPipeline H4.
      kept_by DreamComposeDev DreamPipeline H3.
      kept_by DreamComposeOverride DreamPipeline H2.
      exact S1.
    + kept_by DreamComposeLocal DreamComposeOverride H5.
      kept_by DreamComposeProxy DreamComposeOverride H4.
      kept_by DreamComposeDev DreamComposeOverride H3.
      exact S2.
    + kept_by DreamComposeLocal DreamComposeDev H5.
      kept_by DreamComposeProxy DreamComposeDev H4.
      exact S3.
    + kept_by DreamComposeLocal DreamComposeProxy H5.
      exact S4.
    + exact S5.
Qed.



(** X22: once [save] has returned for a distribution that holds a config,
    every further [save] of it raises [FileExistsError], with the
    [overwrite] flag or without: without the flag [mkdir] refuses the
    directory, with it [dump] refuses the first file. *)
Theorem save_twice_raises
    (self : DreamDist.t) (overwrite overwrite' : bool) (fs : filesystem)
    (paths : list Path) (fs' : filesystem) :
  parent_is_file fs (DreamDist.dist_path self) = false ->
  holds_config self ->
  DreamDistOps.save self overwrite fs = Ok (paths, fs') ->
  DreamDistOps.save self overwrite' fs' = Raise FileExistsError.
Proof.
  intros Hnf Hheld
    (_ & Hcwd & Hdir & Hpar & S1 & S2 & S3 & S4 & S5)%save_Ok.
  specialize (Hpar Hnf). unfold DreamDistOps.save, mkdir. cbv zeta.
  set (dist_path := DreamDist.dist_path self) in *.
  rewrite (locate_cwd _ _ _ Hcwd).
  rewrite (mkdir_parents_existing _ _ _ Dir);
    rewrite rev_involutive; [|done..].
  unfold mkdir_failed. rewrite Hdir.
  destruct overwrite'; [|done]. cbn [negb orb mbind result_bind].
  assert (node_at fs' (locate fs' dist_path) = Some Dir) as Hdir'
    by by rewrite (locate_cwd _ _ _ Hcwd).
  rewrite (save_config_existing (cfg := DreamPipeline)) by done.
  destruct (DreamDist.pipeline_conf self) as [?|] eqn:Hp; [done|].
  cbn [mbind result_bind].
  rewrite (save_config_existing (cfg := DreamComposeOverride)) by done.
  destruct (DreamDist.compose_override self) as [?|] eqn:Ho; [done|].
  cbn [mbind result_bind].
  rewrite (save_config_existing (cfg := DreamComposeDev)) by done.
  destruct (DreamDist.compose_dev self) as [?|] eqn:Hd; [done|].
  cbn [mbind result_bind].
  rewrite (save_config_existing (cfg := DreamComposeProxy)) by done.
  destruct (DreamDist.compose_proxy self) as [?|] eqn:Hx; [done|].
  cbn [mbind result_bind].
  rewrite (save_config_existing (cfg := DreamComposeLocal)) by done.
  destruct (DreamDist.compose_local self) as [?|] eqn:Hl; [done|].
  unfold holds_config in Hheld. rewrite Hp, Ho, Hd, Hx, Hl in Hheld.
  by destruct Hheld as [?%is_Some_None|[?%is_Some_None|[?%is_Some_None|
    [?%is_Some_None|?%is_Some_None]]]].
Qed.

Lemma save_twice_raises_witness :
  DreamDistOps.save Samples2.template_copy true Samples2.saved.2
  = Raise FileExistsError.
Proof.
  apply (save_twice_raises Samples2.template_copy false true Samples.disk
           Samples2.saved.1 Samples2.saved.2).
  - vm_compute. reflexivity.
  - right. right. left. vm_compute. by eexists.
  - vm_compute. reflexivity.
Defined.

(** X23: without [overwrite], [save] raises [FileExistsError] whenever the
    distribution path is there, in a directory: an empty distribution
    directory is refused like one with files. *)
Theorem save_refuses_existing_path
    (self : DreamDist.t) (fs : filesystem) :
  check_parent fs (locate fs (DreamDist.dist_path self)) = Ok () ->
  path_exists fs (DreamDist.dist_path self) = true ->
  DreamDistOps.save self false fs = Raise FileExistsError.
Proof.
  intros Hpar Hex. unfold DreamDistOps.save, mkdir. cbv zeta.
  unfold path_exists in Hex.
  destruct (node_at fs (locate fs (DreamDist.dist_path self))) as [n|] eqn:Hn;
    [|done].
  rewrite (mkdir_parents_existing _ _ _ n);
    rewrite rev_involutive; [|done..].
  reflexivity.
Qed.

Lemma save_refuses_existing_path_witness :
  DreamDistOps.save Samples.scenario_dist false Samples.fresh_disk
  = Raise FileExistsError.
Proof.
  apply (save_refuses_existing_path Samples.scenario_dist Samples.fresh_disk);
    vm_compute; reflexivity.
Defined.

End SaveFacts.

(** ** Writing a config and loading it again *)

Section RoundTrip.

Context {C : Type} {cfg : DreamConfig C}.




End RoundTrip.

